(** * csv-evaluator: a shallow embedding of the validation engine

    The development follows [src/validator.ts] (header, column-schema,
    SQL-pattern and encoding validators) and [src/index.ts] (the
    orchestrator [validateFile]).

    - JavaScript strings are sequences of UTF-16 code units; they are
      modelled as [list N].  Array indices, lengths and line numbers are
      [nat].
    - The parsed table has its declared type [string[][]]: every row is an
      array of strings.  Reading an array out of range gives [undefined] in
      the source and [None] here, and the guards of the source against
      missing rows and cells are kept on that case.
    - Loops that push onto [failures] thread the accumulator, as the source
      does; the properties below relate them to what each cell contributes.
    - [String.prototype.toLowerCase] is a parameter of the validators that
      use it. *)

From Stdlib Require Import String Ascii NArith Decimal Hexadecimal Lia.
From stdpp Require Import base option list sorting gmap.

Local Open Scope N_scope.

(** ** JavaScript strings *)

Abbreviation JsString := (list N).

(** An ASCII literal of the source, as a sequence of code units. *)
Definition js (s : string) : JsString :=
  List.map N_of_ascii (list_ascii_of_string s).

(** The double-quote character, which occurs inside several template
    literals of the source. *)
Definition dquote : JsString := [34].

(** [WhiteSpace] and [LineTerminator] code units of ECMAScript: the set
    removed by [String.prototype.trim] and matched by the regular-expression
    class [\s]. *)
Definition isLineTerminator (c : N) : bool :=
  (c =? 0x0A) || (c =? 0x0D) || (c =? 0x2028) || (c =? 0x2029).

Definition isWhiteSpace (c : N) : bool :=
  ((0x09 <=? c) && (c <=? 0x0D)) || (c =? 0x20) || (c =? 0xA0)
  || (c =? 0x1680) || ((0x2000 <=? c) && (c <=? 0x200A))
  || (c =? 0x2028) || (c =? 0x2029) || (c =? 0x202F) || (c =? 0x205F)
  || (c =? 0x3000) || (c =? 0xFEFF).

Fixpoint dropWhile (p : N -> bool) (s : JsString) : JsString :=
  match s with
  | [] => []
  | c :: s' => if p c then dropWhile p s' else s
  end.

Definition trimStart (s : JsString) : JsString := dropWhile isWhiteSpace s.
Definition trimEnd (s : JsString) : JsString :=
  rev (dropWhile isWhiteSpace (rev s)).

(** [String.prototype.trim] *)
Definition trim (s : JsString) : JsString := trimEnd (trimStart s).

(** [s === ''] *)
Definition isEmptyString (s : JsString) : bool :=
  match s with [] => true | _ => false end.

(** [str.substring(0, n)] for [0 <= n] *)
Definition substring0 (n : nat) (s : JsString) : JsString := take n s.

(** [str.padStart(n, c)] with a one-character filler *)
Definition padStart (n : nat) (c : N) (s : JsString) : JsString :=
  replicate (n - length s) c ++ s.

(** [arr.join(sep)] on an array of strings *)
Fixpoint join (sep : JsString) (l : list JsString) : JsString :=
  match l with
  | [] => []
  | [x] => x
  | x :: rest => x ++ sep ++ join sep rest
  end.

(** ** Numbers in template literals *)

Fixpoint decimalDigits (d : Decimal.uint) : JsString :=
  match d with
  | Decimal.Nil => []
  | Decimal.D0 d => 48 :: decimalDigits d
  | Decimal.D1 d => 49 :: decimalDigits d
  | Decimal.D2 d => 50 :: decimalDigits d
  | Decimal.D3 d => 51 :: decimalDigits d
  | Decimal.D4 d => 52 :: decimalDigits d
  | Decimal.D5 d => 53 :: decimalDigits d
  | Decimal.D6 d => 54 :: decimalDigits d
  | Decimal.D7 d => 55 :: decimalDigits d
  | Decimal.D8 d => 56 :: decimalDigits d
  | Decimal.D9 d => 57 :: decimalDigits d
  end.

(** [`${n}`] for a non-negative integer [n] (an index, a length or a line) *)
Definition numberToString (n : nat) : JsString :=
  decimalDigits (Nat.to_uint n).

Fixpoint hexDigits (d : Hexadecimal.uint) : JsString :=
  match d with
  | Hexadecimal.Nil => []
  | Hexadecimal.D0 d => 48 :: hexDigits d
  | Hexadecimal.D1 d => 49 :: hexDigits d
  | Hexadecimal.D2 d => 50 :: hexDigits d
  | Hexadecimal.D3 d => 51 :: hexDigits d
  | Hexadecimal.D4 d => 52 :: hexDigits d
  | Hexadecimal.D5 d => 53 :: hexDigits d
  | Hexadecimal.D6 d => 54 :: hexDigits d
  | Hexadecimal.D7 d => 55 :: hexDigits d
  | Hexadecimal.D8 d => 56 :: hexDigits d
  | Hexadecimal.D9 d => 57 :: hexDigits d
  | Hexadecimal.Da d => 97 :: hexDigits d
  | Hexadecimal.Db d => 98 :: hexDigits d
  | Hexadecimal.Dc d => 99 :: hexDigits d
  | Hexadecimal.Dd d => 100 :: hexDigits d
  | Hexadecimal.De d => 101 :: hexDigits d
  | Hexadecimal.Df d => 102 :: hexDigits d
  end.

(** [charCode.toString(16)]: lower-case hexadecimal digits *)
Definition toString16 (n : N) : JsString := hexDigits (N.to_hex_uint n).

(** The upper-case form of a code unit below 128.  The source applies
    [toUpperCase] to the output of [toString(16)] only, that is to strings
    over [0-9a-f], where it coincides with this function; the same mapping
    is the [Canonicalize] operation of case-insensitive regular expressions
    on ASCII code units. *)
Definition asciiUpper (c : N) : N :=
  if (97 <=? c) && (c <=? 122) then c - 32 else c.

Definition asciiLower (c : N) : N :=
  if (65 <=? c) && (c <=? 90) then c + 32 else c.

(** ASCII-only lower-casing; it agrees with [String.prototype.toLowerCase]
    on strings whose code units are all below 128 and is used to run the
    validators on concrete ASCII tables. *)
Definition asciiToLowerCase (s : JsString) : JsString := List.map asciiLower s.

(** ** Regular expressions

    The fragment of the ECMAScript pattern language that the source uses:
    assertions [^] and [$] (without the [m] flag), single characters, the
    classes [\s], [\d] and [.], sequencing, alternation, and the greedy
    quantifiers applied to a single character or class.  [x+] is written
    [RSeq x (RStar x)] and [x?] is written [RAlt x REmpty]. *)

Inductive CharSet : Type :=
| CsLit (c : N)
| CsSpace
| CsDigit
| CsDot.

Inductive Regex : Type :=
| REmpty
| RBol
| REol
| RChar (cs : CharSet)
| RSeq (r1 r2 : Regex)
| RAlt (r1 r2 : Regex)
| RStar (cs : CharSet).

Record RegExp : Type := mkRegExp {
  source : Regex;
  ignoreCase : bool
}.

Definition isDigit (c : N) : bool := (48 <=? c) && (c <=? 57).

(** Does the code unit [ch] belong to the character set?  With the [i] flag
    two characters are compared after [Canonicalize]; every literal of the
    source's patterns is an ASCII character, and [Canonicalize] never maps a
    code unit of 128 or more to one below 128, so comparing the ASCII
    upper-case forms is exact. *)
Definition csMatch (ic : bool) (cs : CharSet) (ch : N) : bool :=
  match cs with
  | CsLit c => if ic then asciiUpper c =? asciiUpper ch else c =? ch
  | CsSpace => isWhiteSpace ch
  | CsDigit => isDigit ch
  | CsDot => negb (isLineTerminator ch)
  end.

(** The greedy loop of a quantified character set: consume one more
    character if possible, otherwise (or on backtracking) continue. *)
Fixpoint starK (ic : bool) (cs : CharSet) (k : bool -> JsString -> bool)
    (atStart : bool) (s : JsString) : bool :=
  match s with
  | [] => false
  | c :: s' => csMatch ic cs c && starK ic cs k false s'
  end || k atStart s.

(** The backtracking matcher, in continuation-passing style as in the
    language specification.  The state is the unread suffix of the input and
    a flag telling whether the current position is the start of the input. *)
Fixpoint matchK (ic : bool) (r : Regex) (atStart : bool) (s : JsString)
    (k : bool -> JsString -> bool) : bool :=
  match r with
  | REmpty => k atStart s
  | RBol => atStart && k atStart s
  | REol => match s with [] => k atStart s | _ :: _ => false end
  | RChar cs =>
      match s with
      | [] => false
      | c :: s' => csMatch ic cs c && k false s'
      end
  | RSeq r1 r2 => matchK ic r1 atStart s (fun b s' => matchK ic r2 b s' k)
  | RAlt r1 r2 => matchK ic r1 atStart s k || matchK ic r2 atStart s k
  | RStar cs => starK ic cs k atStart s
  end.

(** Try every start position from the current one on. *)
Fixpoint searchFrom (ic : bool) (r : Regex) (atStart : bool) (s : JsString) : bool :=
  matchK ic r atStart s (fun _ _ => true)
  || match s with
     | [] => false
     | _ :: s' => searchFrom ic r false s'
     end.

(** [pattern.test(s)] for a pattern without the [g] and [y] flags *)
Definition test (re : RegExp) (s : JsString) : bool :=
  searchFrom (ignoreCase re) (source re) true s.

(** Pattern-building helpers *)
Definition lit (s : string) : Regex :=
  fold_right (fun c r => RSeq (RChar (CsLit c)) r) REmpty (js s).
Definition plus (cs : CharSet) : Regex := RSeq (RChar cs) (RStar cs).
Definition opt (r : Regex) : Regex := RAlt r REmpty.
Fixpoint seqs (l : list Regex) : Regex :=
  match l with
  | [] => REmpty
  | [r] => r
  | r :: rest => RSeq r (seqs rest)
  end.
Fixpoint alts (l : list Regex) : Regex :=
  match l with
  | [] => REmpty
  | [r] => r
  | r :: rest => RAlt r (alts rest)
  end.

(** ** Loops *)

(** [for (let i = start; i < start + count; i++) body], threading the state
    that the body updates *)
Fixpoint forLoop {S : Type} (count start : nat) (body : nat -> S -> S) (s : S) : S :=
  match count with
  | O => s
  | Datatypes.S n => forLoop n (Datatypes.S start) body (body start s)
  end.

(** The same loop when the body may [return] from the enclosing function *)
Fixpoint forLoopReturn {R : Type} (count start : nat) (body : nat -> option R) : option R :=
  match count with
  | O => None
  | Datatypes.S n =>
      match body start with
      | Some r => Some r
      | None => forLoopReturn n (Datatypes.S start) body
      end
  end.

(** [arr.forEach((x, index) => ...)] *)
Fixpoint forEachFrom {A S : Type} (index : nat) (l : list A)
    (f : A -> nat -> S -> S) (s : S) : S :=
  match l with
  | [] => s
  | x :: l' => forEachFrom (Datatypes.S index) l' f (f x index s)
  end.

Definition forEach {A S : Type} (l : list A) (f : A -> nat -> S -> S) (s : S) : S :=
  forEachFrom 0 l f s.

(** [arr.includes(x)] on an array of strings *)
Definition includes (l : list JsString) (x : JsString) : bool :=
  bool_decide (x ∈ l).

(** [arr.indexOf(x)]; [None] stands for -1 *)
Fixpoint indexOf (l : list JsString) (x : JsString) : option nat :=
  match l with
  | [] => None
  | y :: l' => if bool_decide (y = x) then Some O else Datatypes.S <$> indexOf l' x
  end.

(** [x || alt] where [x] is a string or [undefined] *)
Definition orElse (x : option JsString) (alt : JsString) : JsString :=
  match x with
  | Some (c :: s) => c :: s
  | _ => alt
  end.

(** ** Types ([types.ts]) *)

Inductive ColumnType : Type := TString | TNumber | TBoolean.

Record ColumnConstraints : Type := mkColumnConstraints {
  type : option ColumnType;
  allowNull : option bool
}.

(** [columnSchemas] is a JavaScript object used as a map; it is given by its
    entries in [Object.keys] order (keys pairwise distinct, and none of them
    a name that objects inherit, such as [__proto__]). *)
Record HeaderConfig : Type := mkHeaderConfig {
  expectedHeaders : list JsString;
  strictOrder : option bool;
  caseInsensitive : option bool;
  columnSchemas : option (list (JsString * ColumnConstraints))
}.

Inductive EncodingType : Type := UTF8 | LATIN1 | ASCII | UTF16 | WINDOWS1252.

Record EncodingConfig : Type := mkEncodingConfig {
  allowedEncodings : option (list EncodingType)
}.

Record ValidationConfig : Type := mkValidationConfig {
  headers : HeaderConfig;
  validateSqlInjection : option bool;
  encoding : option EncodingConfig
}.

Record ValidationFailure : Type := mkFailure {
  column : JsString;
  line : nat;
  reason : JsString
}.

Inductive ValidationResult : Type :=
| Success (message : JsString)
| Failure (message : JsString) (failures : list ValidationFailure).

(** What awaiting [parseFile(file)] yields: the parsed table, or a thrown
    value.  The [catch] clause of [validateFile] tells an instance of [Error],
    whose [message] it reads, from any other thrown value, which has no
    message as far as the code is concerned. *)
Inductive Thrown : Type :=
| ThrownError (message : JsString)
| ThrownOther.

Inductive ParseOutcome : Type :=
| Parsed (data : list (list JsString))
| ParseThrew (error : Thrown).

(** ** The pattern catalog ([SQL_DANGEROUS_PATTERNS]) *)

Definition sp : Regex := RStar CsSpace.
Definition sp1 : Regex := plus CsSpace.

Definition SQL_DANGEROUS_PATTERNS : list (RegExp * JsString) :=
  [ (mkRegExp (lit ";") false, js "Statement terminator");
    (mkRegExp (lit "--") false, js "SQL comment");
    (mkRegExp (lit "/*") false, js "Multi-line comment start");
    (mkRegExp (lit "*/") false, js "Multi-line comment end");
    (mkRegExp (lit "';") false,
       js "Quote followed by statement terminator (potential injection)");
    (mkRegExp (seqs [lit "';"; sp;
                     alts [lit "drop"; lit "delete"; lit "update"; lit "insert"; lit "select"]])
              true, js "SQL injection pattern");
    (mkRegExp (seqs [lit "';"; sp; lit "exec"]) true, js "SQL injection with exec");
    (mkRegExp (seqs [lit "';"; sp; lit "union"]) true, js "SQL injection with union");
    (mkRegExp (RChar (CsLit 0x00)) false, js "Null byte");
    (mkRegExp (RChar (CsLit 0x1a)) false, js "Ctrl+Z character");
    (mkRegExp (RChar (CsLit 0x08)) false, js "Backspace character");
    (mkRegExp (lit "xp_") true, js "Extended stored procedure");
    (mkRegExp (lit "sp_") true, js "System stored procedure");
    (mkRegExp (seqs [lit "exec"; sp; lit "("]) true, js "EXEC( statement");
    (mkRegExp (seqs [lit "execute"; sp; lit "("]) true, js "EXECUTE( statement");
    (mkRegExp (seqs [lit "select"; sp1; RStar CsDot; sp1; lit "from"]) true,
       js "SELECT ... FROM statement");
    (mkRegExp (seqs [lit "insert"; sp1; lit "into"]) true, js "INSERT INTO statement");
    (mkRegExp (seqs [lit "update"; sp1; RStar CsDot; sp1; lit "set"]) true,
       js "UPDATE ... SET statement");
    (mkRegExp (seqs [lit "delete"; sp1; lit "from"]) true, js "DELETE FROM statement");
    (mkRegExp (seqs [lit "drop"; sp1; alts [lit "table"; lit "database"; lit "schema"]])
              true, js "DROP TABLE/DATABASE statement");
    (mkRegExp (seqs [lit "union"; sp1; lit "select"]) true, js "UNION SELECT statement");
    (mkRegExp (seqs [lit "or"; sp1; lit "1"; sp; lit "="; sp; lit "1"]) true,
       js "OR 1=1 injection pattern");
    (mkRegExp (seqs [lit "'"; sp; lit "or"; sp; lit "'"]) true,
       js "Quote OR quote injection pattern") ].

(** [BOOLEAN_VALUES] *)
Definition BOOLEAN_VALUES : list JsString :=
  [js "t"; js "f"; js "true"; js "false"].

(** [NUMBER_PATTERN]: anchored at both ends; an optional minus, then
    either digits (one or more) with an optional group made of a dot and
    digits (zero or more), or digits (zero or more), a dot and digits (one or
    more). *)
Definition NUMBER_PATTERN : RegExp :=
  mkRegExp
    (seqs [RBol; opt (lit "-");
           RAlt (RSeq (plus CsDigit) (opt (RSeq (lit ".") (RStar CsDigit))))
                (seqs [RStar CsDigit; lit "."; plus CsDigit]);
           REol])
    false.

(** [stripSurroundingQuotes] *)
Definition stripSurroundingQuotes (value : JsString) : JsString :=
  let trimmed := trim value in
  if (2 <=? length trimmed)%nat then
    if (bool_decide (head trimmed = Some 34) && bool_decide (last trimmed = Some 34))
       || (bool_decide (head trimmed = Some 39) && bool_decide (last trimmed = Some 39))
    then take (length trimmed - 2) (drop 1 trimmed)
    else trimmed
  else trimmed.

(** [ENCODING_RANGES] *)
Record Range : Type := mkRange { min : N; max : N }.

Definition ENCODING_RANGES (e : EncodingType) : Range :=
  match e with
  | ASCII => mkRange 0x00 0x7F
  | LATIN1 => mkRange 0x00 0xFF
  | UTF8 => mkRange 0x00 0x7F
  | UTF16 => mkRange 0x00 0x7F
  | WINDOWS1252 => mkRange 0x00 0xFF
  end.

Definition isValidForEncoding (charCode : N) (encoding : EncodingType) : bool :=
  let range := ENCODING_RANGES encoding in
  (min range <=? charCode) && (charCode <=? max range).

Definition encodingName (e : EncodingType) : JsString :=
  match e with
  | UTF8 => js "UTF8"
  | LATIN1 => js "LATIN1"
  | ASCII => js "ASCII"
  | UTF16 => js "UTF16"
  | WINDOWS1252 => js "WINDOWS1252"
  end.

(** [`${x}`] where [x] is a string or [undefined] *)
Definition template (x : option JsString) : JsString :=
  default (js "undefined") x.

(** An element of [colIndexToConstraints] *)
Record Entry : Type := mkEntry {
  name : JsString;
  constraints : ColumnConstraints
}.

(** ** The content pattern validator ([validateDataRows]) *)

(** The loop over the catalog for one cell; it stops at the first match. *)
Fixpoint scanPatterns (catalog : list (RegExp * JsString)) (cellValue : JsString)
    (headers : list JsString) (rowIndex colIndex : nat)
    (failures : list ValidationFailure) : list ValidationFailure :=
  match catalog with
  | [] => failures
  | (pattern, description) :: rest =>
      if test pattern cellValue then
        let columnName :=
          orElse (headers !! colIndex) (js "Column " ++ numberToString (colIndex + 1)) in
        let preview := substring0 50 cellValue in
        failures ++
        [mkFailure columnName (rowIndex + 1)
           (js "Contains potentially dangerous SQL pattern (" ++ description ++ js "): "
            ++ dquote ++ preview
            ++ (if (50 <? length cellValue)%nat then js "..." else [])
            ++ dquote)]
      else scanPatterns rest cellValue headers rowIndex colIndex failures
  end.

Definition validateDataRows (data : list (list JsString)) (headers : list JsString)
    (validateSqlInjection : bool) : list ValidationFailure :=
  if negb validateSqlInjection then []
  else
    forLoop (length data - 1) 1 (fun rowIndex failures =>
      match data !! rowIndex with
      | None => failures
      | Some row =>
          if (length row =? 0)%nat || forallb isEmptyString row then failures
          else
            forLoop (length row) 0 (fun colIndex failures =>
              let cellValue := trim (default [] (row !! colIndex)) in
              if isEmptyString cellValue then failures
              else scanPatterns SQL_DANGEROUS_PATTERNS cellValue headers
                     rowIndex colIndex failures) failures
      end) [].

(** ** The encoding validator ([validateEncoding]) *)

(** [allowedEncodings.some(encoding => isValidForEncoding(charCode, encoding))] *)
Definition isValid (allowedEncodings : list EncodingType) (charCode : N) : bool :=
  existsb (fun encoding => isValidForEncoding charCode encoding) allowedEncodings.

(** The loop over the characters of one cell ([rest] is what remains to be
    read); it stops at the first invalid character. *)
Fixpoint scanChars (rest : JsString) (allowedEncodings : list EncodingType)
    (headers : list JsString) (rowIndex colIndex : nat)
    (failures : list ValidationFailure) : list ValidationFailure :=
  match rest with
  | [] => failures
  | charCode :: rest' =>
      if negb (isValid allowedEncodings charCode) then
        let columnName :=
          orElse (headers !! colIndex) (js "Column " ++ numberToString (colIndex + 1)) in
        let char := [charCode] in
        let charHex :=
          js "0x" ++ padStart 4 48 (List.map asciiUpper (toString16 charCode)) in
        failures ++
        [mkFailure columnName (rowIndex + 1)
           (js "Contains character " ++ dquote ++ char ++ dquote ++ js " (" ++ charHex
            ++ js ") not allowed in specified encodings: "
            ++ join (js ", ") (List.map encodingName allowedEncodings))]
      else scanChars rest' allowedEncodings headers rowIndex colIndex failures
  end.

Definition validateEncoding (data : list (list JsString)) (headers : list JsString)
    (allowedEncodings : list EncodingType) : list ValidationFailure :=
  if (length allowedEncodings =? 0)%nat then []
  else
    forLoop (length data - 1) 1 (fun rowIndex failures =>
      match data !! rowIndex with
      | None => failures
      | Some row =>
          if (length row =? 0)%nat || forallb isEmptyString row then failures
          else
            forLoop (length row) 0 (fun colIndex failures =>
              let cellValue := default [] (row !! colIndex) in
              if isEmptyString cellValue then failures
              else scanChars cellValue allowedEncodings headers
                     rowIndex colIndex failures) failures
      end) [].

Section Validators.

(** [String.prototype.toLowerCase] maps every Unicode character with a
    lower-case form; it is a parameter of the development, so that what is
    proved holds for the real function. *)
Variable toLowerCase : JsString -> JsString.

(** The local function [normalize] of the three places that define it *)
Definition normalize (caseInsensitive : bool) (str : JsString) : JsString :=
  if caseInsensitive then trim (toLowerCase str) else trim str.

(** ** The header validator ([validateHeaders]) *)

Definition validateHeaders (headers : list JsString) (config : HeaderConfig)
    : option ValidationFailure :=
  let expectedHeaders := expectedHeaders config in
  let strictOrder := default true (strictOrder config) in
  let caseInsensitive := default false (caseInsensitive config) in
  let normalize := normalize caseInsensitive in
  let normalizedHeaders := List.map normalize headers in
  let normalizedExpected := List.map normalize expectedHeaders in
  let missingHeaders :=
    forEach normalizedExpected (fun expected index missingHeaders =>
      if negb (includes normalizedHeaders expected)
      then missingHeaders ++ [default [] (expectedHeaders !! index)]
      else missingHeaders) [] in
  if (0 <? length missingHeaders)%nat then
    Some (mkFailure (js "headers") 1
            (js "Missing required headers: " ++ join (js ", ") missingHeaders))
  else if strictOrder then
    if negb (length normalizedHeaders =? length normalizedExpected)%nat then
      Some (mkFailure (js "headers") 1
              (js "Expected " ++ numberToString (length normalizedExpected)
               ++ js " headers, found " ++ numberToString (length normalizedHeaders)))
    else
      forLoopReturn (length normalizedHeaders) 0 (fun i =>
        if bool_decide (normalizedHeaders !! i ≠ normalizedExpected !! i) then
          Some (mkFailure
                  (orElse (expectedHeaders !! i) (js "column " ++ numberToString (i + 1)))
                  1
                  (js "Expected header " ++ dquote ++ template (expectedHeaders !! i)
                   ++ dquote ++ js " at position " ++ numberToString (i + 1)
                   ++ js ", found " ++ dquote ++ template (headers !! i) ++ dquote))
        else None)
  else None.

(** ** The column schema validator *)

Definition getFilteredColumnSchemas (config : HeaderConfig)
    : gmap JsString ColumnConstraints :=
  match columnSchemas config with
  | None => ∅
  | Some columnSchemas =>
      if (length columnSchemas =? 0)%nat then ∅
      else
        let caseInsensitive := default false (caseInsensitive config) in
        let normalize := normalize caseInsensitive in
        let normalizedExpected := List.map normalize (expectedHeaders config) in
        fold_left (fun filtered entry =>
          let key := fst entry in
          let normalizedKey := normalize key in
          if includes normalizedExpected normalizedKey then
            let canonicalKey :=
              default key
                (List.find (fun h => bool_decide (normalize h = normalizedKey))
                   (expectedHeaders config)) in
            <[canonicalKey := snd entry]> filtered
          else filtered) columnSchemas ∅
  end.

Definition validateCellForSchema (rawValue : JsString) (constraints : ColumnConstraints)
    (columnName : JsString) (lineNumber : nat) : option ValidationFailure :=
  let rawStr := rawValue in
  let type := default TString (type constraints) in
  let allowNull := default true (allowNull constraints) in
  let trimmed := trim rawStr in
  let isEmpty := isEmptyString trimmed in
  if isEmpty then
    if negb allowNull then
      Some (mkFailure columnName lineNumber
              (js "Column " ++ dquote ++ columnName ++ dquote
               ++ js " does not allow null or empty values"))
    else None
  else
    let valueToCheck := stripSurroundingQuotes trimmed in
    match type with
    | TString => None
    | TNumber =>
        if negb (test NUMBER_PATTERN valueToCheck) then
          let preview :=
            if (50 <? length rawStr)%nat then substring0 50 rawStr ++ js "..." else rawStr in
          Some (mkFailure columnName lineNumber
                  (js "Column " ++ dquote ++ columnName ++ dquote
                   ++ js " expects a number; got: " ++ dquote ++ preview ++ dquote))
        else None
    | TBoolean =>
        let normalized := toLowerCase valueToCheck in
        if negb (includes BOOLEAN_VALUES normalized) then
          let preview :=
            if (50 <? length rawStr)%nat then substring0 50 rawStr ++ js "..." else rawStr in
          Some (mkFailure columnName lineNumber
                  (js "Column " ++ dquote ++ columnName ++ dquote
                   ++ js " expects a boolean (T, F, true, false); got: "
                   ++ dquote ++ preview ++ dquote))
        else None
    end.

(** The array [colIndexToConstraints] of [validateColumnSchemas]; [None]
    stands for [null]. *)
Definition colIndexToConstraints (headers : list JsString) (config : HeaderConfig)
    : list (option Entry) :=
  let columnSchemas := getFilteredColumnSchemas config in
  let caseInsensitive := default false (caseInsensitive config) in
  let normalize := normalize caseInsensitive in
  let normalizedHeaders := List.map normalize headers in
  let expectedNormalized := List.map normalize (expectedHeaders config) in
  imap (fun colIndex _header =>
    normalized ← normalizedHeaders !! colIndex;
    expectedIndex ← indexOf expectedNormalized normalized;
    expectedKey ← expectedHeaders config !! expectedIndex;
    constraints ← columnSchemas !! expectedKey;
    columnName ← headers !! colIndex;
    Some (mkEntry columnName constraints)) headers.

Definition validateColumnSchemas (data : list (list JsString)) (headers : list JsString)
    (config : HeaderConfig) : list ValidationFailure :=
  let columnSchemas := getFilteredColumnSchemas config in
  if (size columnSchemas =? 0)%nat then []
  else
    let colIndexToConstraints := colIndexToConstraints headers config in
    forLoop (length data - 1) 1 (fun rowIndex failures =>
      match data !! rowIndex with
      | None => failures
      | Some row =>
          if (length row =? 0)%nat then failures
          else
            forLoop (length row) 0 (fun colIndex failures =>
              match mjoin (colIndexToConstraints !! colIndex) with
              | None => failures
              | Some entry =>
                  let cellValue := default [] (row !! colIndex) in
                  match validateCellForSchema cellValue (constraints entry)
                          (name entry) (rowIndex + 1) with
                  | Some failure => failures ++ [failure]
                  | None => failures
                  end
              end) failures
      end) [].

(** ** The orchestrator ([validateFile])

    The function awaits [parseFile(file)] once, inside [try]; its model takes
    what the await yields. *)
Definition validateFile (parsed : ParseOutcome) (config : ValidationConfig)
    : ValidationResult :=
  match parsed with
  | ParseThrew error =>
      Failure
        (js "Error processing file: "
         ++ match error with ThrownError message => message | ThrownOther => js "Unknown error" end)
        [mkFailure (js "file") 0
           match error with
           | ThrownError message => message
           | ThrownOther => js "Unknown error occurred"
           end]
  | Parsed data =>
      match data with
      | [] =>
          Failure (js "File is empty")
            [mkFailure (js "file") 0 (js "File contains no data")]
      | headerRow :: _ =>
          let headerConfig := headers config in
          let headers := headerRow in
          match validateHeaders headers headerConfig with
          | Some headerFailure => Failure (js "Header validation failed") [headerFailure]
          | None =>
              let validateSql := default true (validateSqlInjection config) in
              let sqlFailures := validateDataRows data headers validateSql in
              let columnSchemaFailures :=
                match columnSchemas headerConfig with
                | Some schemas =>
                    if (0 <? length schemas)%nat
                    then validateColumnSchemas data headers headerConfig
                    else []
                | None => []
                end in
              let encodingFailures :=
                match encoding config ≫= allowedEncodings with
                | Some allowed =>
                    if (0 <? length allowed)%nat
                    then [] ++ validateEncoding data headers allowed
                    else []
                | None => []
                end in
              let allFailures := sqlFailures ++ columnSchemaFailures ++ encodingFailures in
              if (0 <? length allFailures)%nat then
                Failure
                  (js "Validation failed: " ++ numberToString (length allFailures)
                   ++ js " issue(s) found")
                  allFailures
              else Success (js "File validation passed successfully")
          end
      end
  end.

End Validators.

(** ** Derived notions used in the statements *)

(** Declarative reading of a pattern: at a position whose start-of-input
    flag is [b], the pattern consumes exactly [w] when [rest] follows. *)
Fixpoint Matches (ic : bool) (r : Regex) (b : bool) (w rest : JsString) : Prop :=
  match r with
  | REmpty => w = []
  | RBol => w = [] ∧ b = true
  | REol => w = [] ∧ rest = []
  | RChar cs => ∃ c, w = [c] ∧ csMatch ic cs c = true
  | RSeq r1 r2 =>
      ∃ w1 w2, w = w1 ++ w2 ∧ Matches ic r1 b w1 (w2 ++ rest)
               ∧ Matches ic r2 (b && isEmptyString w1) w2 rest
  | RAlt r1 r2 => Matches ic r1 b w rest ∨ Matches ic r2 b w rest
  | RStar cs => Forall (fun c => csMatch ic cs c = true) w
  end.

(** The numeric grammar in the words of the specification: an optional
    leading minus, then either one or more digits optionally followed by a
    decimal point and zero or more digits, or a decimal point followed by
    one or more digits. *)
Definition digits (w : JsString) : Prop := Forall (fun c => isDigit c = true) w.

Definition spec_number_grammar (v : JsString) : Prop :=
  ∃ sign body,
    v = sign ++ body ∧ (sign = [] ∨ sign = js "-") ∧
    ((∃ ds tl, body = ds ++ tl ∧ ds ≠ [] ∧ digits ds ∧
               (tl = [] ∨ ∃ fs, tl = js "." ++ fs ∧ digits fs))
     ∨ (∃ fs, body = js "." ++ fs ∧ fs ≠ [] ∧ digits fs)).

(** One layer of surrounding matching quotes, in the words of the
    specification: a value of the form [q inner q] with [q] a single or a
    double quote loses the two quotes, any other value is unchanged. *)
Definition spec_strip_quotes (v : JsString) : JsString :=
  match v with
  | q :: tl =>
      match rev tl with
      | q' :: rinner =>
          if ((q =? 34) || (q =? 39)) && (q =? q') then rev rinner else v
      | [] => v
      end
  | [] => v
  end.

(** Failures of a table, cell by cell: data row [i] of [rows] is row
    [i + 1] of the table. *)
Definition tableFailures (cellF : nat -> nat -> JsString -> list ValidationFailure)
    (rows : list (list JsString)) : list ValidationFailure :=
  concat (imap (fun i row => concat (imap (fun j cell => cellF (S i) j cell) row)) rows).

(** What one cell contributes to the result of [validateDataRows] *)
Definition cellPatternFailures (headers : list JsString) (rowIndex colIndex : nat)
    (cell : JsString) : list ValidationFailure :=
  if isEmptyString (trim cell) then []
  else scanPatterns SQL_DANGEROUS_PATTERNS (trim cell) headers rowIndex colIndex [].

(** What one cell contributes to the result of [validateEncoding] *)
Definition cellEncodingFailures (allowedEncodings : list EncodingType)
    (headers : list JsString) (rowIndex colIndex : nat) (cell : JsString)
    : list ValidationFailure :=
  if (length allowedEncodings =? 0)%nat then []
  else scanChars cell allowedEncodings headers rowIndex colIndex [].

(** What one cell contributes to the result of [validateColumnSchemas] *)
Definition cellSchemaFailures (toLowerCase : JsString -> JsString)
    (headers : list JsString) (config : HeaderConfig) (rowIndex colIndex : nat)
    (cell : JsString) : list ValidationFailure :=
  match mjoin (colIndexToConstraints toLowerCase headers config !! colIndex) with
  | None => []
  | Some entry =>
      option_list (validateCellForSchema toLowerCase cell (constraints entry)
                     (name entry) (rowIndex + 1))
  end.

(** The failure that [validateDataRows] builds for a matching entry *)
Definition patternFailure (hdr : list JsString) (rowIndex colIndex : nat)
    (cellValue description : JsString) : ValidationFailure :=
  mkFailure (orElse (hdr !! colIndex) (js "Column " ++ numberToString (colIndex + 1)))
    (rowIndex + 1)
    (js "Contains potentially dangerous SQL pattern (" ++ description ++ js "): "
     ++ dquote ++ take 50 cellValue
     ++ (if (50 <? length cellValue)%nat then js "..." else [])
     ++ dquote).

(** The failure that [validateEncoding] builds for an invalid character *)
Definition encodingFailure (allowed : list EncodingType) (hdr : list JsString)
    (rowIndex colIndex : nat) (charCode : N) : ValidationFailure :=
  mkFailure (orElse (hdr !! colIndex) (js "Column " ++ numberToString (colIndex + 1)))
    (rowIndex + 1)
    (js "Contains character " ++ dquote ++ [charCode] ++ dquote ++ js " ("
     ++ js "0x" ++ padStart 4 48 (List.map asciiUpper (toString16 charCode))
     ++ js ") not allowed in specified encodings: "
     ++ join (js ", ") (List.map encodingName allowed)).

(** The outcome that the orchestrator builds from the collected failures *)
Definition outcomeOf (allFailures : list ValidationFailure) : ValidationResult :=
  match allFailures with
  | [] => Success (js "File validation passed successfully")
  | _ :: _ =>
      Failure (js "Validation failed: " ++ numberToString (length allFailures)
               ++ js " issue(s) found") allFailures
  end.

(** ** Example tables and policies *)

Definition name_email : list JsString := [js "Name"; js "Email"].

Definition base_policy : ValidationConfig :=
  mkValidationConfig (mkHeaderConfig name_email None None None) None None.

Definition injection_table : list (list JsString) :=
  [name_email; [js "Alice; DROP TABLE users"; js "a@b.com"]].

(** A data row that is shorter than the header row, under a policy that
    forbids empty values in the second column *)
Definition ragged_header : list JsString := [js "Name"; js "Age"].

Definition age_required : ColumnConstraints :=
  mkColumnConstraints (Some TNumber) (Some false).

Definition ragged_policy : HeaderConfig :=
  mkHeaderConfig ragged_header None None (Some [(js "Age", age_required)]).

Definition ragged_table : list (list JsString) := [ragged_header; [js "Alice"]].

Definition blank_age_table : list (list JsString) :=
  [ragged_header; [js "Alice"; js "  "]].

(** A cell made of a no-break space (0xA0), which [trim] removes *)
Definition nbsp_table : list (list JsString) := [[js "Name"]; [[0xA0]]].

(** A header cell that contains a catalog pattern and a character outside
    the ASCII range, in a column of type "number" *)
Definition odd_header : JsString := 0xE9 :: js "; DROP TABLE t".

Definition odd_policy : ValidationConfig :=
  mkValidationConfig
    (mkHeaderConfig [odd_header] None None (Some [(odd_header, age_required)]))
    None (Some (mkEncodingConfig (Some [UTF8]))).

Definition odd_table : list (list JsString) := [[odd_header]; [js "42"]].

Definition cafe : JsString := js "Caf" ++ [0xE9].

(** ** Further derived notions *)

(** The expected headers, in order, whose normalized form is not among the
    normalized observed headers *)
Definition missingOf (toLowerCase : JsString -> JsString) (hdr : list JsString)
    (config : HeaderConfig) : list JsString :=
  let norm := normalize toLowerCase (default false (caseInsensitive config)) in
  List.filter (fun e => negb (includes (List.map norm hdr) (norm e))) (expectedHeaders config).

(** The key under which [getFilteredColumnSchemas] stores the constraints of
    the schema key [key]: the first expected header with the same normalized
    form *)
Definition canonicalKey (toLowerCase : JsString -> JsString) (config : HeaderConfig)
    (key : JsString) : JsString :=
  let norm := normalize toLowerCase (default false (caseInsensitive config)) in
  default key (List.find (fun h => bool_decide (norm h = norm key)) (expectedHeaders config)).

(** One iteration of the loop of [getFilteredColumnSchemas] *)
Definition filterStep (toLowerCase : JsString -> JsString) (config : HeaderConfig)
    (filtered : gmap JsString ColumnConstraints) (entry : JsString * ColumnConstraints)
    : gmap JsString ColumnConstraints :=
  let norm := normalize toLowerCase (default false (caseInsensitive config)) in
  if includes (List.map norm (expectedHeaders config)) (norm entry.1)
  then <[canonicalKey toLowerCase config entry.1 := entry.2]> filtered
  else filtered.

(** Constraints that reject nothing: type "string" (or none) and empty
    values allowed *)
Definition lenient (c : ColumnConstraints) : Prop :=
  (type c = None ∨ type c = Some TString) ∧ allowNull c ≠ Some false.

(** The number of cells in the data rows of a table *)
Definition dataCells (data : list (list JsString)) : nat :=
  sum_list (length <$> tail data).

(** Failures ordered by line *)
Definition byLine (f g : ValidationFailure) : Prop := (line f ≤ line g)%nat.

(** The encodings whose range reaches 0xFF *)
Definition isWide (e : EncodingType) : bool :=
  match e with
  | LATIN1 | WINDOWS1252 => true
  | UTF8 | ASCII | UTF16 => false
  end.

(** The largest character code that a list of encodings allows *)
Definition limitOf (allowed : list EncodingType) : N :=
  if existsb isWide allowed then 0xFF else 0x7F.

(** Where a failure points: its column and its line *)
Definition position (f : ValidationFailure) : JsString * nat := (column f, line f).

(** ASCII letters, the characters that a case-insensitive literal matches
    in two forms *)
Definition isLetter (c : N) : bool :=
  ((65 <=? c) && (c <=? 90)) || ((97 <=? c) && (c <=? 122)).

(** A sufficient syntactic condition for every match of a pattern to
    contain one of the characters [lits] (none of them a letter) or, when
    [spaces] is set, a whitespace character *)
Fixpoint requires (lits : list N) (spaces : bool) (r : Regex) : bool :=
  match r with
  | RChar (CsLit c) => bool_decide (c ∈ lits) && negb (isLetter c)
  | RChar CsSpace => spaces
  | RSeq r1 r2 => requires lits spaces r1 || requires lits spaces r2
  | RAlt r1 r2 => requires lits spaces r1 && requires lits spaces r2
  | _ => false
  end.

(** The characters without which no entry of the catalog matches, besides
    whitespace: [;], [-], [*], the single quote, NUL, SUB, backspace, [_]
    and the opening parenthesis *)
Definition riskyChars : list N := [59; 45; 42; 39; 0; 26; 8; 95; 40].

Definition isRisky (ch : N) : bool :=
  isWhiteSpace ch || bool_decide (ch ∈ riskyChars).

(** ** The parser entry point ([parseFile] of [parser.ts]) *)

(** A browser [File]: its name and its bytes *)
Record File : Type := mkFile {
  file_name : JsString;
  file_bytes : list N
}.

(** [s.lastIndexOf(c)] for a one-character string [c]: the loop keeps the
    last position seen so far, starting from -1 *)
Fixpoint lastIndexOfFrom (c : N) (s : JsString) (index : nat) (found : Z) : Z :=
  match s with
  | [] => found
  | x :: s' =>
      lastIndexOfFrom c s' (S index) (if x =? c then Z.of_nat index else found)
  end.

Definition lastIndexOf (s : JsString) (c : N) : Z := lastIndexOfFrom c s 0 (-1)%Z.

(** [s.substring(start)] for an integer [start]; a negative one counts as 0 *)
Definition substringFrom (start : Z) (s : JsString) : JsString :=
  drop (Z.to_nat start) s.

Section Parser.

Variable toLowerCase : JsString -> JsString.

(** [parseCsv] and [parseExcel] hand the file to the libraries papaparse and
    xlsx; what awaiting them yields is a parameter. *)
Variables parseCsv parseExcel : File -> ParseOutcome.

Definition parseFile (file : File) : ParseOutcome :=
  let fileName := toLowerCase (file_name file) in
  let extension := substringFrom (lastIndexOf fileName 46 + 1)%Z fileName in
  if bool_decide (extension = js "csv") then parseCsv file
  else if includes [js "xlsx"; js "xls"; js "xlsm"] extension then parseExcel file
  else
    ParseThrew
      (ThrownError
         (js "Unsupported file type: " ++ extension
          ++ js ". Supported types: csv, xlsx, xls, xlsm")).

(** [validateFile(file, config)]: the orchestrator on what [parseFile] yields *)
Definition validateUpload (file : File) (config : ValidationConfig) : ValidationResult :=
  validateFile toLowerCase (parseFile file) config.

End Parser.

(** The policy with the pattern check switched off and no encoding policy *)
Definition relaxed (config : ValidationConfig) : ValidationConfig :=
  mkValidationConfig (headers config) (Some false) None.

(** ** Further example tables and policies *)

Definition any_order_policy : HeaderConfig :=
  mkHeaderConfig name_email (Some false) None None.

Definition name_email_age : list JsString := [js "Name"; js "Email"; js "Age"].

Definition strict_policy : HeaderConfig :=
  mkHeaderConfig name_email_age None None None.

(** A schema key written in upper case under a case-insensitive policy *)
Definition upper_key_policy : HeaderConfig :=
  mkHeaderConfig ragged_header None (Some true) (Some [(js "AGE", age_required)]).

(** A schema key that is not an expected header *)
Definition unknown_key_policy : HeaderConfig :=
  mkHeaderConfig ragged_header None None (Some [(js "Salary", age_required)]).

(** Schema entries that spell out the defaults *)
Definition default_schema_policy : HeaderConfig :=
  mkHeaderConfig ragged_header None None
    (Some [(js "Age", mkColumnConstraints None None);
           (js "Name", mkColumnConstraints (Some TString) (Some true))]).

Definition injection_failure : ValidationFailure :=
  mkFailure (js "Name") 2
    (js "Contains potentially dangerous SQL pattern (Statement terminator): "
     ++ dquote ++ js "Alice; DROP TABLE users" ++ dquote).

Definition cafe_table : list (list JsString) := [name_email; [cafe; js "a@b.com"]].

Definition csv_upload : File := mkFile (js "Report.Final.CSV") [].
Definition text_upload : File := mkFile (js "notes.txt") [].

(** * Properties *)

(** ** Regular expressions *)

Lemma starK_spec ic cs k : ∀ s b,
  starK ic cs k b s = true ↔
  ∃ w rest, s = w ++ rest ∧ Forall (fun c => csMatch ic cs c = true) w
            ∧ k (b && isEmptyString w) rest = true.
Proof.
  induction s as [|c s IH]; intros b; simpl.
  - split.
    + intros H. exists [], []. simpl. rewrite andb_true_r. auto.
    + intros (w & rest & Hs & _ & Hk).
      symmetry in Hs. apply app_eq_nil in Hs as [-> ->].
      simpl in Hk. by rewrite andb_true_r in Hk.
  - rewrite orb_true_iff, andb_true_iff, IH. split.
    + intros [[Hc (w & rest & -> & Hw & Hk)] | Hk].
      * exists (c :: w), rest. split; [done|]. split; [by constructor|].
        simpl. rewrite andb_false_r. by destruct (isEmptyString w).
      * exists [], (c :: s). simpl. rewrite andb_true_r. auto.
    + intros (w & rest & Hs & Hw & Hk). destruct w as [|c' w].
      * right. simpl in *. subst rest. by rewrite andb_true_r in Hk.
      * left. simpl in Hs. injection Hs as <- ->.
        apply Forall_cons in Hw as [Hc Hw]. split; [done|].
        exists w, rest. split; [done|]. split; [done|].
        simpl in Hk. rewrite andb_false_r in Hk. by destruct (isEmptyString w).
Qed.

Lemma isEmptyString_app w1 w2 :
  isEmptyString (w1 ++ w2) = isEmptyString w1 && isEmptyString w2.
Proof. by destruct w1. Qed.

Lemma isEmptyString_true s : isEmptyString s = true ↔ s = [].
Proof. by destruct s. Qed.

Lemma isEmptyString_false s : isEmptyString s = false ↔ s ≠ [].
Proof. by destruct s. Qed.

Lemma matchK_spec ic r : ∀ b s k,
  matchK ic r b s k = true ↔
  ∃ w rest, s = w ++ rest ∧ Matches ic r b w rest
            ∧ k (b && isEmptyString w) rest = true.
Proof.
  induction r as [| | |cs|r1 IH1 r2 IH2|r1 IH1 r2 IH2|cs]; intros b s k; simpl.
  - split.
    + intros H. exists [], s. simpl. rewrite andb_true_r. auto.
    + intros (w & rest & -> & -> & Hk). simpl in Hk. by rewrite andb_true_r in Hk.
  - rewrite andb_true_iff. split.
    + intros [-> Hk]. exists [], s. simpl. auto.
    + intros (w & rest & -> & [-> ->] & Hk). simpl in *. auto.
  - destruct s as [|c s].
    + split.
      * intros Hk. exists [], []. simpl. rewrite andb_true_r. auto.
      * intros (w & rest & Hs & [-> ->] & Hk). simpl in Hk.
        by rewrite andb_true_r in Hk.
    + split; [done|]. intros (w & rest & Hs & [-> ->] & _). done.
  - destruct s as [|c s].
    + split; [done|]. intros (w & rest & Hs & (c & -> & _) & _). done.
    + rewrite andb_true_iff. split.
      * intros [Hc Hk]. exists [c], s. simpl. rewrite andb_false_r. eauto.
      * intros (w & rest & Hs & (c' & -> & Hc) & Hk). simpl in Hs.
        injection Hs as -> ->. simpl in Hk. rewrite andb_false_r in Hk. auto.
  - rewrite IH1. split.
    + intros (w1 & rest1 & -> & H1 & Hk). apply IH2 in Hk as (w2 & rest & -> & H2 & Hk).
      exists (w1 ++ w2), rest. rewrite <- (assoc_L (++)). split; [done|].
      split; [by exists w1, w2|].
      by rewrite isEmptyString_app, andb_assoc.
    + intros (w & rest & -> & (w1 & w2 & -> & H1 & H2) & Hk).
      exists w1, (w2 ++ rest). rewrite <- (assoc_L (++)). split; [done|].
      split; [done|]. apply IH2. exists w2, rest. split; [done|]. split; [done|].
      by rewrite isEmptyString_app, andb_assoc in Hk.
  - rewrite orb_true_iff, IH1, IH2. split.
    + intros [(w & rest & -> & H & Hk) | (w & rest & -> & H & Hk)];
        exists w, rest; auto.
    + intros (w & rest & -> & [H | H] & Hk); [left | right]; exists w, rest; auto.
  - apply starK_spec.
Qed.

Lemma searchFrom_spec ic r : ∀ s b,
  searchFrom ic r b s = true ↔
  ∃ pre w post, s = pre ++ w ++ post ∧ Matches ic r (b && isEmptyString pre) w post.
Proof.
  induction s as [|c s IH]; intros b; simpl; rewrite orb_true_iff, matchK_spec.
  - split.
    + intros [(w & rest & Hs & H & _) | ?]; [|done].
      exists [], w, rest. simpl. by rewrite andb_true_r.
    + intros (pre & w & post & Hs & H). left.
      destruct pre; [|done]. simpl in *. rewrite andb_true_r in H. eauto.
  - rewrite IH. split.
    + intros [(w & rest & Hs & H & _) | (pre & w & post & -> & H)].
      * exists [], w, rest. simpl. by rewrite andb_true_r.
      * exists (c :: pre), w, post. simpl. by rewrite andb_false_r.
    + intros (pre & w & post & Hs & H). destruct pre as [|c' pre].
      * left. simpl in *. rewrite andb_true_r in H. eauto.
      * right. simpl in Hs. injection Hs as -> ->. simpl in H.
        rewrite andb_false_r in H. by exists pre, w, post.
Qed.

Lemma test_spec re s :
  test re s = true ↔
  ∃ pre w post, s = pre ++ w ++ post
                ∧ Matches (ignoreCase re) (source re) (isEmptyString pre) w post.
Proof. unfold test. by rewrite searchFrom_spec. Qed.

Lemma Matches_lit1 c b w rest :
  Matches false (RSeq (RChar (CsLit c)) REmpty) b w rest ↔ w = [c].
Proof.
  simpl. split.
  - intros (w1 & w2 & -> & (ch & -> & Hc) & ->). apply N.eqb_eq in Hc. by subst.
  - intros ->. exists [c], []. split; [done|]. split; [|done].
    exists c. by rewrite N.eqb_refl.
Qed.

Lemma Matches_plus ic cs b w rest :
  Matches ic (plus cs) b w rest ↔ w ≠ [] ∧ Forall (fun c => csMatch ic cs c = true) w.
Proof.
  simpl. split.
  - intros (w1 & w2 & -> & (c & -> & Hc) & Hw). split; [done|]. by constructor.
  - intros [Hne Hw]. destruct w as [|c w]; [done|].
    apply Forall_cons in Hw as [Hc Hw]. exists [c], w. eauto.
Qed.

Lemma number_pattern_spec v : test NUMBER_PATTERN v = true ↔ spec_number_grammar v.
Proof.
  rewrite test_spec. unfold spec_number_grammar, digits.
  change (source NUMBER_PATTERN) with
    (RSeq RBol (RSeq (RAlt (RSeq (RChar (CsLit 45)) REmpty) REmpty)
       (RSeq (RAlt (RSeq (plus CsDigit)
                      (RAlt (RSeq (RSeq (RChar (CsLit 46)) REmpty) (RStar CsDigit)) REmpty))
                   (RSeq (RStar CsDigit)
                      (RSeq (RSeq (RChar (CsLit 46)) REmpty) (plus CsDigit))))
             REol))).
  change (ignoreCase NUMBER_PATTERN) with false.
  change (js "-") with [45]. change (js ".") with [46].
  split.
  - intros (pre & w & post & -> & H).
    destruct H as (w1 & w2 & -> & [-> Hpre] & w3 & w4 & -> & Hsign & w5 & w6 & -> &
                   Hbody & -> & ->).
    apply isEmptyString_true in Hpre as ->.
    exists w3, w5. split; [by rewrite !app_nil_r|]. split.
    { destruct Hsign as [Hsign | ->]; [right | by left].
      by apply Matches_lit1 in Hsign. }
    destruct Hbody as [(w7 & w8 & -> & Hint & Hfrac) | (w7 & w8 & -> & Hint & Hfrac)].
    + apply Matches_plus in Hint as [Hne Hds]. left. exists w7, w8.
      split; [done|]. split; [done|]. split; [done|].
      destruct Hfrac as [(w9 & w10 & -> & Hdot & Hfs) | ->]; [right | by left].
      apply Matches_lit1 in Hdot as ->. by exists w10.
    + destruct Hfrac as (w9 & w10 & -> & Hdot & Hfs).
      apply Matches_lit1 in Hdot as ->. apply Matches_plus in Hfs as [Hne Hfs].
      destruct w7 as [|d w7].
      * right. by exists w10.
      * left. exists (d :: w7), ([46] ++ w10). split; [done|]. split; [done|].
        split; [done|]. right. by exists w10.
  - intros (sign & body & -> & Hsign & Hbody).
    exists [], (sign ++ body), []. split; [by rewrite app_nil_r|].
    exists [], (sign ++ body). split; [done|]. split; [done|].
    exists sign, body. split; [done|]. split.
    { destruct Hsign as [-> | ->]; [by right | left]. by apply Matches_lit1. }
    exists body, []. split; [by rewrite app_nil_r|]. split; [|done].
    destruct Hbody as [(ds & tl & -> & Hne & Hds & Htl) | (fs & -> & Hne & Hfs)].
    + left. exists ds, tl. split; [done|]. split; [by apply Matches_plus|].
      destruct Htl as [-> | (fs & -> & Hfs)]; [by right | left].
      exists [46], fs. split; [done|]. split; [by apply Matches_lit1 | done].
    + right. exists [], ([46] ++ fs). split; [done|]. split; [constructor|].
      exists [46], fs. split; [done|]. split; [by apply Matches_lit1|].
      by apply Matches_plus.
Qed.

(** ** Trimming *)

Lemma dropWhile_idem p s : dropWhile p (dropWhile p s) = dropWhile p s.
Proof.
  induction s as [|c s IH]; [done|]. simpl.
  destruct (p c) eqn:Hc; [done|]. simpl. by rewrite Hc.
Qed.

Lemma dropWhile_nil_iff p s : dropWhile p s = [] ↔ Forall (fun c => p c = true) s.
Proof.
  induction s as [|c s IH]; simpl.
  - split; [constructor | done].
  - destruct (p c) eqn:Hc.
    + rewrite IH. split; [by constructor | by intros [_ ?]%Forall_cons].
    + split; [done|]. intros [? _]%Forall_cons. congruence.
Qed.

Lemma dropWhile_keep p c s : p c = false → dropWhile p (c :: s) = c :: s.
Proof. intros Hc. simpl. by rewrite Hc. Qed.

Lemma dropWhile_snoc p s c :
  p c = false → ∃ u, dropWhile p (s ++ [c]) = u ++ [c].
Proof.
  intros Hc. induction s as [|d s [u IH]]; simpl.
  - rewrite Hc. by exists [].
  - destruct (p d); [by exists u|]. by exists (d :: s).
Qed.

Lemma dropWhile_head p s c t : dropWhile p s = c :: t → p c = false.
Proof.
  induction s as [|d s IH]; simpl; [done|].
  destruct (p d) eqn:Hd; [done|]. by intros [= <- _].
Qed.

Lemma trim_idem s : trim (trim s) = trim s.
Proof.
  unfold trim, trimEnd, trimStart.
  destruct (dropWhile isWhiteSpace s) as [|c a] eqn:Ha; [done|].
  pose proof (dropWhile_head _ _ _ _ Ha) as Hc.
  change (rev (c :: a)) with (rev a ++ [c]).
  destruct (dropWhile_snoc isWhiteSpace (rev a) c Hc) as [u Hu].
  assert (Hfix : dropWhile isWhiteSpace (u ++ [c]) = u ++ [c]).
  { rewrite <- Hu. apply dropWhile_idem. }
  rewrite Hu, rev_app_distr. change (rev [c] ++ rev u) with (c :: rev u).
  rewrite (dropWhile_keep _ _ _ Hc). change (rev (c :: rev u)) with (rev (rev u) ++ [c]).
  by rewrite rev_involutive, Hfix, rev_app_distr.
Qed.

Lemma trim_whitespace s :
  Forall (fun c => isWhiteSpace c = true) s → trim s = [].
Proof.
  intros H. unfold trim, trimStart, trimEnd.
  by apply dropWhile_nil_iff in H as ->.
Qed.

Lemma trim_nil : trim [] = [].
Proof. done. Qed.

(** ** Stripping quotes *)

Lemma stripSurroundingQuotes_spec v :
  stripSurroundingQuotes v = spec_strip_quotes (trim v).
Proof.
  unfold stripSurroundingQuotes, spec_strip_quotes.
  destruct (trim v) as [|q tl]; [done|].
  destruct (rev tl) as [|q' rinner] eqn:Htl.
  - apply (f_equal (@rev N)) in Htl. rewrite rev_involutive in Htl. by subst tl.
  - apply (f_equal (@rev N)) in Htl. rewrite rev_involutive in Htl. simpl in Htl.
    subst tl.
    assert (Hlen : (2 <=? length (q :: rev rinner ++ [q']))%nat = true).
    { apply Nat.leb_le. simpl. rewrite length_app. simpl. lia. }
    rewrite Hlen.
    assert (Hlast : last (q :: rev rinner ++ [q']) = Some q').
    { change (q :: rev rinner ++ [q']) with ((q :: rev rinner) ++ [q']).
      apply last_snoc. }
    rewrite Hlast. change (head (q :: rev rinner ++ [q'])) with (Some q).
    assert (Htake : take (length (q :: rev rinner ++ [q']) - 2)
                      (drop 1 (q :: rev rinner ++ [q'])) = rev rinner).
    { simpl. rewrite drop_0, length_app. simpl.
      replace (length (rev rinner) + 1 - 1)%nat with (length (rev rinner)) by lia.
      by rewrite take_app_length. }
    rewrite Htake.
    assert (Hb : bool_decide (Some q = Some 34) && bool_decide (Some q' = Some 34)
                 || bool_decide (Some q = Some 39) && bool_decide (Some q' = Some 39)
                 = ((q =? 34) || (q =? 39)) && (q =? q')).
    { apply eq_true_iff_eq.
      rewrite !orb_true_iff, !andb_true_iff, !orb_true_iff, !bool_decide_eq_true, !N.eqb_eq.
      intuition congruence. }
    by rewrite Hb.
Qed.

(** ** Loops that only append to their accumulator *)

Lemma forLoop_app {A : Type} (g : nat → list A) (body : nat → list A → list A) :
  (∀ i acc, body i acc = acc ++ g i) →
  ∀ count start acc,
    forLoop count start body acc = acc ++ concat (List.map g (seq start count)).
Proof.
  intros Hbody. induction count as [|n IH]; intros start acc; simpl.
  - by rewrite app_nil_r.
  - by rewrite IH, Hbody, <- (assoc_L (++)).
Qed.

Lemma map_seq_lookup {A B : Type} (l : list A) : ∀ (F : nat → option A → B),
  List.map (fun j => F j (l !! j)) (seq 0 (length l)) = imap (fun j x => F j (Some x)) l.
Proof.
  induction l as [|x l IH]; intros F; [done|]. simpl. f_equal.
  rewrite <- seq_shift, List.map_map. apply (IH (fun j o => F (S j) o)).
Qed.

Lemma cells_loop {A : Type} (cellF : nat → JsString → list A)
    (body : nat → list A → list A) (row : list JsString) (acc : list A) :
  (∀ j acc, body j acc = acc ++ cellF j (default [] (row !! j))) →
  forLoop (length row) 0 body acc = acc ++ concat (imap cellF row).
Proof.
  intros Hbody.
  rewrite (forLoop_app (fun j => cellF j (default [] (row !! j)))) by done.
  by rewrite (map_seq_lookup row (fun j o => cellF j (default [] o))).
Qed.

Lemma rows_loop {A : Type} (cellF : nat → nat → JsString → list A)
    (body : nat → list A → list A) (data : list (list JsString)) :
  (∀ i acc, body i acc =
            acc ++ match data !! i with
                   | None => []
                   | Some row => concat (imap (cellF i) row)
                   end) →
  forLoop (length data - 1) 1 body [] =
  concat (imap (fun i row => concat (imap (fun j cell => cellF (S i) j cell) row))
            (tail data)).
Proof.
  intros Hbody.
  rewrite (forLoop_app (fun i => match data !! i with
                                 | None => []
                                 | Some row => concat (imap (cellF i) row)
                                 end)) by done.
  destruct data as [|hdr rows]; [done|]. simpl.
  rewrite Nat.sub_0_r, <- seq_shift, List.map_map. simpl.
  by rewrite (map_seq_lookup rows
                (fun i o => match o with
                            | None => []
                            | Some row => concat (imap (cellF (S i)) row)
                            end)).
Qed.

Lemma concat_imap_nil {A B : Type} (f : nat → A → list B) (l : list A) :
  (∀ j x, l !! j = Some x → f j x = []) → concat (imap f l) = [].
Proof.
  revert f. induction l as [|x l IH]; intros f Hf; [done|]. simpl.
  rewrite (Hf 0%nat x) by done. simpl. apply IH. intros j y Hj. by apply (Hf (S j)).
Qed.

Lemma tableFailures_nil cellF rows :
  (∀ i row j cell, rows !! i = Some row → row !! j = Some cell → cellF (S i) j cell = []) →
  tableFailures cellF rows = [].
Proof.
  intros H. unfold tableFailures. apply concat_imap_nil. intros i row Hi.
  apply concat_imap_nil. intros j cell Hj. by eapply H.
Qed.

Lemma elem_of_concat_imap {A B : Type} (f : nat → A → list B) (l : list A) (y : B) :
  y ∈ concat (imap f l) ↔ ∃ j x, l !! j = Some x ∧ y ∈ f j x.
Proof.
  revert f. induction l as [|x l IH]; intros f; simpl.
  - split; [by intros ?%elem_of_nil | by intros (j & z & ? & _)].
  - rewrite elem_of_app, IH. split.
    + intros [H | (j & z & Hj & H)]; [by exists 0%nat, x | by exists (S j), z].
    + intros ([|j] & z & Hj & H); simpl in Hj.
      * left. by injection Hj as ->.
      * right. by exists j, z.
Qed.

Lemma elem_of_tableFailures cellF rows f :
  f ∈ tableFailures cellF rows ↔
  ∃ i row j cell, rows !! i = Some row ∧ row !! j = Some cell ∧ f ∈ cellF (S i) j cell.
Proof.
  unfold tableFailures. rewrite elem_of_concat_imap. split.
  - intros (i & row & Hi & (j & cell & Hj & H)%elem_of_concat_imap). by exists i, row, j, cell.
  - intros (i & row & j & cell & Hi & Hj & H). exists i, row. split; [done|].
    apply elem_of_concat_imap. by exists j, cell.
Qed.

(** ** The validators, cell by cell *)

Lemma scanPatterns_acc catalog cellValue hdr rowIndex colIndex acc :
  scanPatterns catalog cellValue hdr rowIndex colIndex acc =
  acc ++ scanPatterns catalog cellValue hdr rowIndex colIndex [].
Proof.
  induction catalog as [|[pattern description] rest IH]; simpl.
  - by rewrite app_nil_r.
  - by destruct (test pattern cellValue).
Qed.

Lemma scanChars_acc cell allowed hdr rowIndex colIndex acc :
  scanChars cell allowed hdr rowIndex colIndex acc =
  acc ++ scanChars cell allowed hdr rowIndex colIndex [].
Proof.
  induction cell as [|c cell IH]; simpl.
  - by rewrite app_nil_r.
  - by destruct (isValid allowed c).
Qed.

Lemma all_empty_cells (row : list JsString) j cell :
  forallb isEmptyString row = true → row !! j = Some cell → cell = [].
Proof.
  intros Hall Hj. apply list_elem_of_lookup_2, list_elem_of_In in Hj.
  rewrite forallb_forall in Hall. by apply isEmptyString_true, Hall.
Qed.

Lemma empty_row_cells (row : list JsString) j cell :
  (length row =? 0)%nat || forallb isEmptyString row = true →
  row !! j = Some cell → cell = [].
Proof.
  intros [Hlen | Hall]%orb_true_iff Hj.
  - apply Nat.eqb_eq, nil_length_inv in Hlen. by subst row.
  - by eapply all_empty_cells.
Qed.

Lemma validateDataRows_cells data hdr :
  validateDataRows data hdr true = tableFailures (cellPatternFailures hdr) (tail data).
Proof.
  unfold validateDataRows, tableFailures. simpl negb. cbv iota.
  apply (rows_loop (cellPatternFailures hdr)). intros i acc.
  destruct (data !! i) as [row|]; [|by rewrite app_nil_r].
  destruct ((length row =? 0)%nat || forallb isEmptyString row) eqn:Hskip.
  - rewrite concat_imap_nil; [by rewrite app_nil_r|].
    intros j cell Hj. by rewrite (empty_row_cells row j cell Hskip Hj).
  - apply cells_loop. intros j acc'. unfold cellPatternFailures.
    destruct (isEmptyString (trim (default [] (row !! j)))); [by rewrite app_nil_r|].
    apply scanPatterns_acc.
Qed.

Lemma validateDataRows_disabled data hdr : validateDataRows data hdr false = [].
Proof. done. Qed.

Lemma validateEncoding_cells data hdr allowed :
  validateEncoding data hdr allowed =
  tableFailures (cellEncodingFailures allowed hdr) (tail data).
Proof.
  unfold validateEncoding.
  destruct (length allowed =? 0)%nat eqn:Hlen.
  - symmetry. apply tableFailures_nil. intros. unfold cellEncodingFailures. by rewrite Hlen.
  - apply (rows_loop (cellEncodingFailures allowed hdr)). intros i acc.
    destruct (data !! i) as [row|]; [|by rewrite app_nil_r].
    destruct ((length row =? 0)%nat || forallb isEmptyString row) eqn:Hskip.
    + rewrite concat_imap_nil; [by rewrite app_nil_r|].
      intros j cell Hj. rewrite (empty_row_cells row j cell Hskip Hj).
      unfold cellEncodingFailures. by rewrite Hlen.
    + apply cells_loop. intros j acc'. unfold cellEncodingFailures. rewrite Hlen.
      destruct (default [] (row !! j)) as [|c cell] eqn:Hcell; [by rewrite app_nil_r|].
      simpl isEmptyString. cbv iota. apply scanChars_acc.
Qed.

Lemma lookup_map {A B : Type} (f : A → B) (l : list A) (i : nat) :
  List.map f l !! i = f <$> l !! i.
Proof.
  revert i. induction l as [|x l IH]; intros [|i]; simpl; auto.
Qed.

(** ** The pattern catalog is scanned in order and stops at the first match *)

Lemma scanPatterns_none catalog cellValue hdr rowIndex colIndex :
  (∀ entry, entry ∈ catalog → test entry.1 cellValue = false) →
  scanPatterns catalog cellValue hdr rowIndex colIndex [] = [].
Proof.
  induction catalog as [|[pattern description] rest IH]; intros Hnone; [done|]. simpl.
  pose proof (Hnone (pattern, description) (list_elem_of_here _ _)) as Hhere.
  simpl in Hhere. rewrite Hhere.
  apply IH. intros entry Hentry. apply Hnone. by apply list_elem_of_further.
Qed.

Lemma scanPatterns_first catalog cellValue hdr rowIndex colIndex :
  ∀ i pattern description,
    catalog !! i = Some (pattern, description) →
    test pattern cellValue = true →
    (∀ j entry, (j < i)%nat → catalog !! j = Some entry → test entry.1 cellValue = false) →
    scanPatterns catalog cellValue hdr rowIndex colIndex [] =
    [patternFailure hdr rowIndex colIndex cellValue description].
Proof.
  induction catalog as [|[pattern0 description0] rest IH];
    intros i pattern description Hi Htest Hearlier; [done|].
  destruct i as [|i]; simpl in *.
  - injection Hi as -> ->. by rewrite Htest.
  - assert (Hhere : test pattern0 cellValue = false).
    { apply (Hearlier 0%nat (pattern0, description0)); [lia | done]. }
    rewrite Hhere.
    apply (IH i pattern description Hi Htest).
    intros j entry Hj Hentry. apply (Hearlier (S j) entry); [lia | done].
Qed.

Lemma scanPatterns_length catalog cellValue hdr rowIndex colIndex :
  (length (scanPatterns catalog cellValue hdr rowIndex colIndex []) ≤ 1)%nat.
Proof.
  induction catalog as [|[pattern description] rest IH]; simpl; [lia|].
  destruct (test pattern cellValue); simpl; [lia | done].
Qed.

(** C6.  [validateDataRows] collects what each data cell contributes, and a
    cell that is not empty after trimming contributes at most one failure:
    none when no catalog entry matches the trimmed text, and otherwise the
    failure carrying the description of the earliest matching entry of
    [SQL_DANGEROUS_PATTERNS], at line [rowIndex + 1].  A cell equal to
    "; DROP TABLE users" is flagged as "Statement terminator". *)
Theorem validateDataRows_first_match_wins :
  (∀ data hdr,
     validateDataRows data hdr true = tableFailures (cellPatternFailures hdr) (tail data)) ∧
  (∀ (hdr : list JsString) (rowIndex colIndex : nat) (cell : JsString),
     trim cell ≠ [] →
     let cellValue := trim cell in
     let emitted := cellPatternFailures hdr rowIndex colIndex cell in
     (length emitted ≤ 1)%nat ∧
     ((∀ entry, entry ∈ SQL_DANGEROUS_PATTERNS → test entry.1 cellValue = false) →
      emitted = []) ∧
     (∀ i pattern description,
        SQL_DANGEROUS_PATTERNS !! i = Some (pattern, description) →
        test pattern cellValue = true →
        (∀ j entry, (j < i)%nat → SQL_DANGEROUS_PATTERNS !! j = Some entry →
                    test entry.1 cellValue = false) →
        emitted = [patternFailure hdr rowIndex colIndex cellValue description])) ∧
  (∀ (hdr : list JsString) (rowIndex colIndex : nat),
     cellPatternFailures hdr rowIndex colIndex (js "; DROP TABLE users") =
     [mkFailure (orElse (hdr !! colIndex) (js "Column " ++ numberToString (colIndex + 1)))
        (rowIndex + 1)
        (js "Contains potentially dangerous SQL pattern (Statement terminator): "
         ++ dquote ++ js "; DROP TABLE users" ++ dquote)]).
Proof.
  split; [exact validateDataRows_cells|]. split.
  - intros hdr rowIndex colIndex cell Hne cellValue emitted.
    assert (Hemitted : emitted =
              scanPatterns SQL_DANGEROUS_PATTERNS cellValue hdr rowIndex colIndex []).
    { unfold emitted, cellPatternFailures. apply isEmptyString_false in Hne.
      by rewrite Hne. }
    rewrite Hemitted. split; [apply scanPatterns_length|]. split.
    + apply scanPatterns_none.
    + apply scanPatterns_first.
  - intros hdr rowIndex colIndex. unfold cellPatternFailures.
    change (trim (js "; DROP TABLE users")) with (js "; DROP TABLE users").
    cbv iota beta delta [isEmptyString js list_ascii_of_string List.map].
    by rewrite (scanPatterns_first _ _ hdr rowIndex colIndex 0
                  (mkRegExp (lit ";") false) (js "Statement terminator"))
      by (done || lia).
Qed.

(** ** The encoding validator stops at the first invalid character *)

Lemma isValid_spec allowed charCode :
  isValid allowed charCode = true ↔
  ∃ e, e ∈ allowed ∧ min (ENCODING_RANGES e) ≤ charCode ≤ max (ENCODING_RANGES e).
Proof.
  unfold isValid, isValidForEncoding. rewrite existsb_exists. split.
  - intros (e & He & [Hmin Hmax]%andb_true_iff). exists e.
    rewrite list_elem_of_In. split; [done|]. split; by apply N.leb_le.
  - intros (e & He & Hmin & Hmax). exists e. rewrite <- list_elem_of_In.
    split; [done|]. apply andb_true_iff. split; by apply N.leb_le.
Qed.

Lemma scanChars_valid cell allowed hdr rowIndex colIndex :
  Forall (fun c => isValid allowed c = true) cell →
  scanChars cell allowed hdr rowIndex colIndex [] = [].
Proof.
  induction 1 as [|c cell Hc _ IH]; [done|]. simpl. by rewrite Hc.
Qed.

Lemma scanChars_first allowed hdr rowIndex colIndex pre charCode post :
  Forall (fun c => isValid allowed c = true) pre →
  isValid allowed charCode = false →
  scanChars (pre ++ charCode :: post) allowed hdr rowIndex colIndex [] =
  [encodingFailure allowed hdr rowIndex colIndex charCode].
Proof.
  intros Hpre Hinvalid. induction Hpre as [|c pre Hc _ IH]; simpl.
  - by rewrite Hinvalid.
  - by rewrite Hc.
Qed.

Lemma first_invalid allowed (cell : JsString) :
  ¬ Forall (fun c => isValid allowed c = true) cell →
  ∃ pre charCode post, cell = pre ++ charCode :: post
    ∧ Forall (fun c => isValid allowed c = true) pre ∧ isValid allowed charCode = false.
Proof.
  induction cell as [|c cell IH]; intros Hnot.
  - destruct Hnot. constructor.
  - destruct (isValid allowed c) eqn:Hc.
    + destruct IH as (pre & charCode & post & -> & Hpre & Hinvalid).
      { intros Hall. apply Hnot. by constructor. }
      exists (c :: pre), charCode, post. split; [done|]. split; [by constructor | done].
    + exists [], c, cell. split; [done|]. split; [constructor | done].
Qed.

(** C9.  In the encoding validator a character is valid if and only if its
    code lies in the inclusive range of at least one allowed encoding, the
    ranges being [0, 0x7F] for ASCII, UTF8 and UTF16 and [0, 0xFF] for LATIN1
    and WINDOWS1252.  The validator collects what each data cell
    contributes; under a non-empty list of encodings a cell whose characters
    are all valid contributes nothing, and otherwise exactly one failure,
    for its first invalid character, naming the character, its code in
    upper-case hexadecimal padded to 4 digits, and the allowed encodings.  A
    cell containing the character 0xE9 is flagged under [UTF8]; the cell made
    of that character alone passes under [LATIN1]. *)
Theorem validateEncoding_union_of_ranges :
  (∀ allowed charCode,
     isValid allowed charCode = true ↔
     ∃ e, e ∈ allowed ∧ min (ENCODING_RANGES e) ≤ charCode ≤ max (ENCODING_RANGES e)) ∧
  (ENCODING_RANGES ASCII = mkRange 0 0x7F ∧ ENCODING_RANGES UTF8 = mkRange 0 0x7F ∧
   ENCODING_RANGES UTF16 = mkRange 0 0x7F ∧ ENCODING_RANGES LATIN1 = mkRange 0 0xFF ∧
   ENCODING_RANGES WINDOWS1252 = mkRange 0 0xFF) ∧
  (∀ data hdr allowed,
     validateEncoding data hdr allowed =
     tableFailures (cellEncodingFailures allowed hdr) (tail data)) ∧
  (∀ (allowed : list EncodingType) (hdr : list JsString) (rowIndex colIndex : nat)
     (cell : JsString),
     allowed ≠ [] →
     (Forall (fun c => isValid allowed c = true) cell →
      cellEncodingFailures allowed hdr rowIndex colIndex cell = []) ∧
     (∀ pre charCode post,
        cell = pre ++ charCode :: post →
        Forall (fun c => isValid allowed c = true) pre →
        isValid allowed charCode = false →
        cellEncodingFailures allowed hdr rowIndex colIndex cell =
        [mkFailure
           (orElse (hdr !! colIndex) (js "Column " ++ numberToString (colIndex + 1)))
           (rowIndex + 1)
           (js "Contains character " ++ dquote ++ [charCode] ++ dquote ++ js " ("
            ++ js "0x" ++ padStart 4 48 (List.map asciiUpper (toString16 charCode))
            ++ js ") not allowed in specified encodings: "
            ++ join (js ", ") (List.map encodingName allowed))])) ∧
  (∀ (hdr : list JsString) (rowIndex colIndex : nat),
     (∀ cell, 0xE9 ∈ cell →
              ∃ failure, cellEncodingFailures [UTF8] hdr rowIndex colIndex cell = [failure]) ∧
     cellEncodingFailures [UTF8] hdr rowIndex colIndex [0xE9] =
     [mkFailure
        (orElse (hdr !! colIndex) (js "Column " ++ numberToString (colIndex + 1)))
        (rowIndex + 1)
        (js "Contains character " ++ dquote ++ [0xE9] ++ dquote
         ++ js " (0x00E9) not allowed in specified encodings: UTF8")] ∧
     (∀ cell, Forall (fun ch => ch ≤ 0xFF) cell →
              cellEncodingFailures [LATIN1] hdr rowIndex colIndex cell = []) ∧
     cellEncodingFailures [LATIN1] hdr rowIndex colIndex [0xE9] = []).
Proof.
  split; [exact isValid_spec|]. split; [done|].
  split; [exact validateEncoding_cells|]. split.
  - intros allowed hdr rowIndex colIndex cell Hallowed.
    assert (Hcell : cellEncodingFailures allowed hdr rowIndex colIndex cell =
                    scanChars cell allowed hdr rowIndex colIndex []).
    { unfold cellEncodingFailures. by destruct allowed. }
    rewrite Hcell. split.
    + apply scanChars_valid.
    + intros pre charCode post -> Hpre Hinvalid. by apply scanChars_first.
  - intros hdr rowIndex colIndex. split.
    + intros cell Hcell.
      destruct (first_invalid [UTF8] cell) as (pre & charCode & post & -> & Hpre & Hinvalid).
      { intros Hall. rewrite Forall_forall in Hall. by specialize (Hall _ Hcell). }
      eexists. unfold cellEncodingFailures. simpl length. cbv iota.
      by apply scanChars_first.
    + split; [|split; [|done]].
      * unfold cellEncodingFailures. simpl length. cbv iota.
        by apply (scanChars_first [UTF8] hdr rowIndex colIndex [] 0xE9 []).
      * intros cell Hcell. unfold cellEncodingFailures. simpl length. cbv iota.
        apply scanChars_valid. eapply Forall_impl; [exact Hcell|].
        intros ch Hch. apply isValid_spec. exists LATIN1.
        split; [apply list_elem_of_here|]. simpl in *. lia.
Qed.

(** ** Where failures come from *)

Lemma scanPatterns_line catalog cellValue hdr rowIndex colIndex f :
  f ∈ scanPatterns catalog cellValue hdr rowIndex colIndex [] → line f = (rowIndex + 1)%nat.
Proof.
  induction catalog as [|[pattern description] rest IH]; simpl.
  - by intros ?%elem_of_nil.
  - destruct (test pattern cellValue); [|done]. by intros ->%list_elem_of_singleton.
Qed.

Lemma scanChars_line cell allowed hdr rowIndex colIndex f :
  f ∈ scanChars cell allowed hdr rowIndex colIndex [] → line f = (rowIndex + 1)%nat.
Proof.
  induction cell as [|c cell IH]; simpl.
  - by intros ?%elem_of_nil.
  - destruct (isValid allowed c); [done|]. by intros ->%list_elem_of_singleton.
Qed.

Lemma cellPatternFailures_blank hdr rowIndex colIndex cell :
  trim cell = [] → cellPatternFailures hdr rowIndex colIndex cell = [].
Proof. intros H. unfold cellPatternFailures. by rewrite H. Qed.

Lemma cellPatternFailures_line hdr rowIndex colIndex cell f :
  f ∈ cellPatternFailures hdr rowIndex colIndex cell →
  trim cell ≠ [] ∧ line f = (rowIndex + 1)%nat.
Proof.
  unfold cellPatternFailures. destruct (isEmptyString (trim cell)) eqn:Hempty.
  - by intros ?%elem_of_nil.
  - intros Hf. split; [by apply isEmptyString_false|]. by eapply scanPatterns_line.
Qed.

Lemma cellEncodingFailures_line allowed hdr rowIndex colIndex cell f :
  f ∈ cellEncodingFailures allowed hdr rowIndex colIndex cell →
  (∃ ch, ch ∈ cell ∧ isValid allowed ch = false) ∧ line f = (rowIndex + 1)%nat.
Proof.
  unfold cellEncodingFailures. destruct (length allowed =? 0)%nat.
  - by intros ?%elem_of_nil.
  - intros Hf. split; [|by eapply scanChars_line].
    destruct (decide (Forall (fun c => isValid allowed c = true) cell)) as [Hall | Hnot].
    + rewrite scanChars_valid in Hf by done. by apply elem_of_nil in Hf.
    + apply first_invalid in Hnot as (pre & ch & post & -> & _ & Hch).
      exists ch. split; [|done]. apply elem_of_app. right. apply list_elem_of_here.
Qed.

Lemma isValid_ascii allowed ch : allowed ≠ [] → ch ≤ 0x7F → isValid allowed ch = true.
Proof.
  intros Hne Hch. destruct allowed as [|e allowed]; [done|]. simpl.
  apply orb_true_iff. left. unfold isValidForEncoding.
  apply andb_true_iff. split; apply N.leb_le; destruct e; simpl; lia.
Qed.

(** C5, as the code has it.  The pattern validator skips the cells that are
    empty after trimming, the encoding validator the cells that are exactly
    empty (it does not trim).  Every pattern failure comes from a data cell
    that is not empty after trimming, and every encoding failure from a data
    cell containing a character outside every allowed range; so a row with
    no cells, or with empty cells only, produces no failure from either
    validator, whatever the policy.  A cell made of whitespace only yields
    no pattern failure, and no encoding failure when its characters lie in
    an allowed range, as characters up to 0x7F always do. *)
Theorem blank_rows_and_cells_produce_no_failure
    (data : list (list JsString)) (hdr : list JsString) (enabled : bool)
    (allowed : list EncodingType) :
  (∀ f, f ∈ validateDataRows data hdr enabled →
        ∃ i row j cell, tail data !! i = Some row ∧ row !! j = Some cell
          ∧ trim cell ≠ [] ∧ f ∈ cellPatternFailures hdr (S i) j cell) ∧
  (∀ f, f ∈ validateEncoding data hdr allowed →
        ∃ i row j cell, tail data !! i = Some row ∧ row !! j = Some cell
          ∧ (∃ ch, ch ∈ cell ∧ isValid allowed ch = false)
          ∧ f ∈ cellEncodingFailures allowed hdr (S i) j cell) ∧
  ((∀ row cell, row ∈ tail data → cell ∈ row → cell = []) →
   validateDataRows data hdr enabled = [] ∧ validateEncoding data hdr allowed = []) ∧
  (∀ rowIndex colIndex cell,
     Forall (fun ch => isWhiteSpace ch = true) cell →
     cellPatternFailures hdr rowIndex colIndex cell = [] ∧
     (Forall (fun ch => ch ≤ 0x7F) cell →
      cellEncodingFailures allowed hdr rowIndex colIndex cell = [])).
Proof.
  split; [|split; [|split]].
  - intros f Hf. destruct enabled; [|by apply elem_of_nil in Hf].
    rewrite validateDataRows_cells in Hf.
    apply elem_of_tableFailures in Hf as (i & row & j & cell & Hi & Hj & Hf).
    exists i, row, j, cell. by apply cellPatternFailures_line in Hf as Hf'; destruct Hf'.
  - intros f Hf. rewrite validateEncoding_cells in Hf.
    apply elem_of_tableFailures in Hf as (i & row & j & cell & Hi & Hj & Hf).
    exists i, row, j, cell. by apply cellEncodingFailures_line in Hf as Hf'; destruct Hf'.
  - intros Hempty.
    assert (Hcell : ∀ i row j cell,
              tail data !! i = Some row → row !! j = Some cell → cell = []).
    { intros i row j cell Hi Hj. eapply Hempty; by eapply list_elem_of_lookup_2. }
    split.
    + destruct enabled; [|done]. rewrite validateDataRows_cells.
      apply tableFailures_nil. intros i row j cell Hi Hj.
      by rewrite (Hcell i row j cell).
    + rewrite validateEncoding_cells. apply tableFailures_nil. intros i row j cell Hi Hj.
      rewrite (Hcell i row j cell) by done. unfold cellEncodingFailures.
      by destruct (length allowed =? 0)%nat.
  - intros rowIndex colIndex cell Hws. split.
    + by apply cellPatternFailures_blank, trim_whitespace.
    + intros Hascii. unfold cellEncodingFailures.
      destruct allowed as [|e allowed']; [done|]. simpl length. cbv iota.
      apply scanChars_valid. eapply Forall_impl; [exact Hascii|].
      intros ch Hch. by apply isValid_ascii.
Qed.

Section ValidatorProperties.

Variable toLowerCase : JsString -> JsString.

(** Where an entry of [colIndexToConstraints] comes from *)
Lemma colIndexToConstraints_lookup hdr config j :
  mjoin (colIndexToConstraints toLowerCase hdr config !! j) =
  header ← hdr !! j;
  let caseInsensitive := default false (caseInsensitive config) in
  expectedIndex ← indexOf (List.map (normalize toLowerCase caseInsensitive)
                             (expectedHeaders config))
                     (normalize toLowerCase caseInsensitive header);
  expectedKey ← expectedHeaders config !! expectedIndex;
  constraints ← getFilteredColumnSchemas toLowerCase config !! expectedKey;
  Some (mkEntry header constraints).
Proof.
  unfold colIndexToConstraints. rewrite list_lookup_imap, lookup_map.
  destruct (hdr !! j) as [header|]; simpl; [|done].
  destruct (indexOf _ _) as [expectedIndex|]; simpl; [|done].
  destruct (expectedHeaders config !! expectedIndex) as [expectedKey|]; simpl; [|done].
  by destruct (getFilteredColumnSchemas toLowerCase config !! expectedKey).
Qed.

Lemma colIndexToConstraints_unconfigured hdr config j :
  getFilteredColumnSchemas toLowerCase config = ∅ →
  mjoin (colIndexToConstraints toLowerCase hdr config !! j) = None.
Proof.
  intros Hempty. rewrite colIndexToConstraints_lookup, Hempty.
  destruct (hdr !! j) as [header|]; simpl; [|done].
  destruct (indexOf _ _) as [expectedIndex|]; simpl; [|done].
  by destruct (expectedHeaders config !! expectedIndex) as [expectedKey|].
Qed.

Lemma validateColumnSchemas_cells data hdr config :
  validateColumnSchemas toLowerCase data hdr config =
  tableFailures (cellSchemaFailures toLowerCase hdr config) (tail data).
Proof.
  unfold validateColumnSchemas.
  destruct (size (getFilteredColumnSchemas toLowerCase config) =? 0)%nat eqn:Hsize.
  - symmetry. apply tableFailures_nil. intros i row j cell _ _.
    unfold cellSchemaFailures. rewrite colIndexToConstraints_unconfigured; [done|].
    by apply map_size_empty_iff, Nat.eqb_eq.
  - apply (rows_loop (cellSchemaFailures toLowerCase hdr config)). intros i acc.
    destruct (data !! i) as [row|]; [|by rewrite app_nil_r].
    destruct (length row =? 0)%nat eqn:Hlen.
    + apply Nat.eqb_eq, nil_length_inv in Hlen. subst row. by rewrite app_nil_r.
    + apply cells_loop. intros j acc'. unfold cellSchemaFailures.
      destruct (mjoin _) as [entry|]; [|by rewrite app_nil_r].
      destruct (validateCellForSchema _ _ _ _ _); simpl; [done | by rewrite app_nil_r].
Qed.

Lemma getFilteredColumnSchemas_unconfigured config :
  match columnSchemas config with
  | Some schemas => (0 <? length schemas)%nat = false
  | None => True
  end →
  getFilteredColumnSchemas toLowerCase config = ∅.
Proof.
  unfold getFilteredColumnSchemas. destruct (columnSchemas config) as [schemas|]; [|done].
  intros H%Nat.ltb_ge. by destruct schemas; [|simpl in H; lia].
Qed.

Lemma validateColumnSchemas_unconfigured data hdr config :
  getFilteredColumnSchemas toLowerCase config = ∅ →
  validateColumnSchemas toLowerCase data hdr config = [].
Proof. intros H. unfold validateColumnSchemas. by rewrite H. Qed.

Lemma outcomeOf_eq allFailures :
  (if (0 <? length allFailures)%nat
   then Failure (js "Validation failed: " ++ numberToString (length allFailures)
                 ++ js " issue(s) found") allFailures
   else Success (js "File validation passed successfully")) = outcomeOf allFailures.
Proof. by destruct allFailures. Qed.

(** The orchestrator past the header gate: the three validators' results,
    concatenated.  A validator that the policy does not configure
    contributes the empty sequence, which is also what it returns when it is
    run on such a policy. *)
Lemma validateFile_past_gate hdr rows config :
  validateHeaders toLowerCase hdr (headers config) = None →
  validateFile toLowerCase (Parsed (hdr :: rows)) config =
  outcomeOf
    (validateDataRows (hdr :: rows) hdr (default true (validateSqlInjection config))
     ++ validateColumnSchemas toLowerCase (hdr :: rows) hdr (headers config)
     ++ validateEncoding (hdr :: rows) hdr (default [] (encoding config ≫= allowedEncodings))).
Proof.
  intros Hhdr. unfold validateFile. rewrite Hhdr. cbv zeta. rewrite outcomeOf_eq.
  f_equal. f_equal. f_equal.
  - destruct (columnSchemas (headers config)) as [schemas|] eqn:Hs.
    + destruct (0 <? length schemas)%nat eqn:Hlen; [done|].
      symmetry. apply validateColumnSchemas_unconfigured,
        getFilteredColumnSchemas_unconfigured. by rewrite Hs.
    + symmetry. apply validateColumnSchemas_unconfigured,
        getFilteredColumnSchemas_unconfigured. by rewrite Hs.
  - destruct (encoding config ≫= allowedEncodings) as [allowed|]; [|done].
    by destruct allowed.
Qed.

(** C1.  For a table with at least one row whose header row passes header
    validation, the orchestrator returns the concatenation of the pattern
    failures, then the schema failures, then the encoding failures: when the
    concatenation is empty, a success outcome with message
    "File validation passed successfully"; otherwise a failure outcome with
    message "Validation failed: <count> issue(s) found", where the count is
    the length of the sequence, carrying the full sequence. *)
Theorem validateFile_concatenates_in_order
    (hdr : list JsString) (rows : list (list JsString)) (config : ValidationConfig) :
  validateHeaders toLowerCase hdr (headers config) = None →
  let data := hdr :: rows in
  let patternFailures :=
    validateDataRows data hdr (default true (validateSqlInjection config)) in
  let schemaFailures := validateColumnSchemas toLowerCase data hdr (headers config) in
  let encodingFailures :=
    validateEncoding data hdr (default [] (encoding config ≫= allowedEncodings)) in
  let allFailures := patternFailures ++ schemaFailures ++ encodingFailures in
  validateFile toLowerCase (Parsed data) config =
  match allFailures with
  | [] => Success (js "File validation passed successfully")
  | _ :: _ =>
      Failure (js "Validation failed: " ++ numberToString (length allFailures)
               ++ js " issue(s) found") allFailures
  end.
Proof.
  intros Hhdr. cbv zeta. unfold validateFile. rewrite Hhdr. cbv zeta.
  (* the schema validator is run only if some schema is configured, and
     returns nothing otherwise *)
  assert (Hschema :
    match columnSchemas (headers config) with
    | Some schemas =>
        if (0 <? length schemas)%nat
        then validateColumnSchemas toLowerCase (hdr :: rows) hdr (headers config)
        else []
    | None => []
    end = validateColumnSchemas toLowerCase (hdr :: rows) hdr (headers config)).
  { destruct (columnSchemas (headers config)) as [schemas|] eqn:Hs.
    - destruct (0 <? length schemas)%nat eqn:Hlen; [done|].
      symmetry. apply validateColumnSchemas_unconfigured,
        getFilteredColumnSchemas_unconfigured. by rewrite Hs.
    - symmetry. apply validateColumnSchemas_unconfigured,
        getFilteredColumnSchemas_unconfigured. by rewrite Hs. }
  (* the encoding validator is run only on a non-empty list of encodings,
     and returns nothing on the empty list *)
  assert (Hencoding :
    match encoding config ≫= allowedEncodings with
    | Some allowed =>
        if (0 <? length allowed)%nat
        then [] ++ validateEncoding (hdr :: rows) hdr allowed
        else []
    | None => []
    end = validateEncoding (hdr :: rows) hdr
            (default [] (encoding config ≫= allowedEncodings))).
  { destruct (encoding config ≫= allowedEncodings) as [allowed|]; [|done].
    by destruct allowed. }
  rewrite Hschema, Hencoding.
  by destruct (_ ++ _ ++ _).
Qed.

(** C2.  When the header validator returns a failure for row 0, the
    orchestrator returns a failure outcome with message
    "Header validation failed" whose failure sequence is exactly that one
    failure: nothing that a pattern, schema or encoding validator could
    report appears in it. *)
Theorem validateFile_header_failure_gates
    (hdr : list JsString) (rows : list (list JsString)) (config : ValidationConfig)
    (headerFailure : ValidationFailure) :
  validateHeaders toLowerCase hdr (headers config) = Some headerFailure →
  validateFile toLowerCase (Parsed (hdr :: rows)) config =
  Failure (js "Header validation failed") [headerFailure].
Proof. intros Hhdr. unfold validateFile. by rewrite Hhdr. Qed.

(** C3.  The entry point is a total function of what the await yields: it
    always returns an outcome, a success only for a parsed table, and a
    failure outcome always carries at least one failure.  When obtaining the
    parsed table throws, the result is a failure outcome that carries
    exactly one failure, with column "file" and line 0, whose reason is the
    message of the thrown error, or "Unknown error occurred" when the thrown
    value is not an error and so has no message to report. *)
Theorem validateFile_converts_thrown_errors (config : ValidationConfig) :
  (∀ error : Thrown,
     validateFile toLowerCase (ParseThrew error) config =
     Failure
       (js "Error processing file: "
        ++ match error with
           | ThrownError message => message
           | ThrownOther => js "Unknown error"
           end)
       [mkFailure (js "file") 0
          match error with
          | ThrownError message => message
          | ThrownOther => js "Unknown error occurred"
          end]) ∧
  (∀ parsed : ParseOutcome,
     match validateFile toLowerCase parsed config with
     | Success _ => ∃ data, parsed = Parsed data
     | Failure _ failures => failures ≠ []
     end).
Proof.
  split; [done|]. intros [data | error]; [|done].
  destruct data as [|hdr rows]; [done|].
  destruct (validateHeaders toLowerCase hdr (headers config)) as [headerFailure|] eqn:Hhdr.
  - unfold validateFile. by rewrite Hhdr.
  - rewrite validateFile_past_gate by done. unfold outcomeOf.
    destruct (_ ++ _ ++ _); [by eexists | done].
Qed.

(** The [forEach] loop of [validateHeaders] collects, in order, the
    expected headers whose normalized form is not among the observed ones. *)
Lemma missingHeaders_loop (absent : JsString → bool) (norm : JsString → JsString)
    (rest : list JsString) : ∀ (pre acc : list JsString),
  forEachFrom (length pre) (List.map norm rest)
    (fun expected index missingHeaders =>
       if absent expected
       then missingHeaders ++ [default [] ((pre ++ rest) !! index)]
       else missingHeaders) acc =
  acc ++ List.filter (fun e => absent (norm e)) rest.
Proof.
  induction rest as [|e rest IH]; intros pre acc; simpl.
  - by rewrite app_nil_r.
  - rewrite list_lookup_middle by done. simpl.
    specialize (IH (pre ++ [e])). rewrite length_app, Nat.add_1_r in IH.
    rewrite <- (assoc_L (++)) in IH. simpl in IH. rewrite IH.
    destruct (absent (norm e)); [|done]. by rewrite <- (assoc_L (++)).
Qed.

(** C8.  If the normalized form (trimmed, and lower-cased when
    [caseInsensitive]) of some expected header does not occur in the
    normalized observed row, the header validator returns the single failure
    with column "headers" and line 1 whose reason lists, joined by ", " and
    in expected order, the original expected names that are missing.  The
    policy is arbitrary, so this holds whatever [strictOrder] is, and no
    count or positional check is reached. *)
Theorem validateHeaders_missing_headers (hdr : list JsString) (config : HeaderConfig) :
  let norm := normalize toLowerCase (default false (caseInsensitive config)) in
  let missing :=
    List.filter (fun e => negb (includes (List.map norm hdr) (norm e)))
      (expectedHeaders config) in
  (∃ e, e ∈ expectedHeaders config ∧ norm e ∉ List.map norm hdr) →
  (∀ e, e ∈ missing ↔ e ∈ expectedHeaders config ∧ norm e ∉ List.map norm hdr) ∧
  validateHeaders toLowerCase hdr config =
  Some (mkFailure (js "headers") 1
          (js "Missing required headers: " ++ join (js ", ") missing)).
Proof.
  intros norm missing (e & He & Habsent).
  assert (Hmissing : ∀ e', e' ∈ missing ↔
                           e' ∈ expectedHeaders config ∧ norm e' ∉ List.map norm hdr).
  { intros e'. unfold missing. rewrite list_elem_of_In, filter_In, <- list_elem_of_In.
    unfold includes. rewrite negb_true_iff, bool_decide_eq_false. done. }
  split; [done|].
  unfold validateHeaders. cbv zeta. unfold forEach. fold norm.
  pose proof (missingHeaders_loop (fun x => negb (includes (List.map norm hdr) x)) norm
                (expectedHeaders config) [] []) as Hloop.
  cbn [app length] in Hloop. rewrite Hloop. fold missing.
  destruct missing as [|m ms] eqn:Hm; [|done].
  exfalso. eapply elem_of_nil, Hmissing. eauto.
Qed.

(** C7.  In a column of type "number", a cell that is not empty after
    trimming is checked after one layer of surrounding matching quotes has
    been stripped from the trimmed text: it passes if and only if what
    remains follows the numeric grammar, and otherwise it yields the failure
    whose reason quotes the raw value, cut to 50 characters and followed by
    "..." when it is longer.  So "42", "-3.14", ".5", "-0." and the quoted
    "42" pass, while "not-a-number" and "1.2.3" fail. *)
Theorem validateCellForSchema_number :
  (∀ (rawValue : JsString) (constraints : ColumnConstraints)
     (columnName : JsString) (lineNumber : nat),
     type constraints = Some TNumber →
     trim rawValue ≠ [] →
     let valueToCheck := spec_strip_quotes (trim rawValue) in
     let preview :=
       if (50 <? length rawValue)%nat then take 50 rawValue ++ js "..." else rawValue in
     stripSurroundingQuotes (trim rawValue) = valueToCheck ∧
     (validateCellForSchema toLowerCase rawValue constraints columnName lineNumber = None
      ↔ spec_number_grammar valueToCheck) ∧
     (¬ spec_number_grammar valueToCheck →
      validateCellForSchema toLowerCase rawValue constraints columnName lineNumber =
      Some (mkFailure columnName lineNumber
              (js "Column " ++ dquote ++ columnName ++ dquote
               ++ js " expects a number; got: " ++ dquote ++ preview ++ dquote)))) ∧
  (∀ (allowNull : option bool) (columnName : JsString) (lineNumber : nat),
     let number := mkColumnConstraints (Some TNumber) allowNull in
     let check rawValue :=
       validateCellForSchema toLowerCase rawValue number columnName lineNumber in
     let rejected rawValue :=
       Some (mkFailure columnName lineNumber
               (js "Column " ++ dquote ++ columnName ++ dquote
                ++ js " expects a number; got: " ++ dquote ++ rawValue ++ dquote)) in
     check (js "42") = None ∧ check (js "-3.14") = None ∧ check (js ".5") = None ∧
     check (js "-0.") = None ∧ check (dquote ++ js "42" ++ dquote) = None ∧
     check (js "not-a-number") = rejected (js "not-a-number") ∧
     check (js "1.2.3") = rejected (js "1.2.3")).
Proof.
  split.
  - intros rawValue constraints columnName lineNumber Htype Hne valueToCheck preview.
    assert (Hstrip : stripSurroundingQuotes (trim rawValue) = valueToCheck).
    { by rewrite stripSurroundingQuotes_spec, trim_idem. }
    assert (Hcell :
      validateCellForSchema toLowerCase rawValue constraints columnName lineNumber =
      if test NUMBER_PATTERN valueToCheck then None
      else Some (mkFailure columnName lineNumber
                   (js "Column " ++ dquote ++ columnName ++ dquote
                    ++ js " expects a number; got: " ++ dquote ++ preview ++ dquote))).
    { unfold validateCellForSchema. cbv zeta. rewrite Htype, Hstrip.
      apply isEmptyString_false in Hne. rewrite Hne.
      by destruct (test NUMBER_PATTERN valueToCheck). }
    split; [done|]. rewrite Hcell, <- number_pattern_spec.
    by destruct (test NUMBER_PATTERN valueToCheck).
  - intros allowNull columnName lineNumber. cbv zeta. repeat split; vm_compute; reflexivity.
Qed.

Lemma validateCellForSchema_line rawValue constraints columnName lineNumber f :
  validateCellForSchema toLowerCase rawValue constraints columnName lineNumber = Some f →
  line f = lineNumber ∧ column f = columnName.
Proof.
  unfold validateCellForSchema. cbv zeta.
  destruct (isEmptyString (trim rawValue)).
  - destruct (negb _); [|done]. by intros [= <-].
  - destruct (default TString (type constraints)); [done| |].
    + destruct (negb _); [|done]. by intros [= <-].
    + destruct (negb _); [|done]. by intros [= <-].
Qed.

Lemma cellSchemaFailures_inv hdr config rowIndex colIndex cell f :
  f ∈ cellSchemaFailures toLowerCase hdr config rowIndex colIndex cell →
  ∃ entry, mjoin (colIndexToConstraints toLowerCase hdr config !! colIndex) = Some entry
    ∧ validateCellForSchema toLowerCase cell (constraints entry) (name entry)
        (rowIndex + 1) = Some f.
Proof.
  unfold cellSchemaFailures. destruct (mjoin _) as [entry|]; [|by intros ?%elem_of_nil].
  destruct (validateCellForSchema _ _ _ _ _) as [f'|] eqn:Hcell; simpl.
  - intros ->%list_elem_of_singleton. by exists entry.
  - by intros ?%elem_of_nil.
Qed.

(** C4, as the code has it.  In a column constrained with [allowNull] false, a
    cell that is present in its data row and empty after trimming makes the
    column schema validator emit the failure for that column (named by the
    header cell at that index) whose reason says that the column does not
    allow null or empty values, at line [rowIndex + 1].  This is for a
    policy with no expected header named [__proto__]: the code keeps the
    filtered schemas in a plain object, which gets no own key under that
    name, so that with no other key the validator returns at once.  For
    every table and policy, every failure of the validator comes from a
    cell that is present in its row: the positions of a row that is shorter
    than the header row are not examined. *)
Theorem validateColumnSchemas_null_check
    (data : list (list JsString)) (hdr : list JsString) (config : HeaderConfig) :
  (∀ (rowIndex colIndex : nat) (row : list JsString) (cell : JsString) (entry : Entry),
     js "__proto__" ∉ expectedHeaders config →
     (1 ≤ rowIndex)%nat →
     data !! rowIndex = Some row →
     row !! colIndex = Some cell →
     trim cell = [] →
     mjoin (colIndexToConstraints toLowerCase hdr config !! colIndex) = Some entry →
     allowNull (constraints entry) = Some false →
     hdr !! colIndex = Some (name entry) ∧
     mkFailure (name entry) (rowIndex + 1)
       (js "Column " ++ dquote ++ name entry ++ dquote
        ++ js " does not allow null or empty values")
     ∈ validateColumnSchemas toLowerCase data hdr config) ∧
  (∀ f, f ∈ validateColumnSchemas toLowerCase data hdr config →
        ∃ i r j c e,
          data !! S i = Some r ∧ r !! j = Some c ∧ (j < length r)%nat
          ∧ line f = (S i + 1)%nat
          ∧ mjoin (colIndexToConstraints toLowerCase hdr config !! j) = Some e
          ∧ validateCellForSchema toLowerCase c (constraints e) (name e) (S i + 1) = Some f).
Proof.
  split.
  - intros rowIndex colIndex row cell entry _ Hrow Hdata Hcell Hblank Hentry Hnull. split.
    + rewrite colIndexToConstraints_lookup in Hentry.
      destruct (hdr !! colIndex) as [header|]; simpl in Hentry; [|done].
      destruct (indexOf _ _) as [expectedIndex|]; simpl in Hentry; [|done].
      destruct (expectedHeaders config !! expectedIndex) as [key|]; simpl in Hentry; [|done].
      destruct (getFilteredColumnSchemas toLowerCase config !! key); simpl in Hentry; [|done].
      by injection Hentry as <-.
    + rewrite validateColumnSchemas_cells. apply elem_of_tableFailures.
      destruct rowIndex as [|i]; [lia|]. destruct data as [|r0 rows]; [done|].
      exists i, row, colIndex, cell. split; [done|]. split; [done|].
      unfold cellSchemaFailures. rewrite Hentry.
      unfold validateCellForSchema. cbv zeta. rewrite Hblank, Hnull. simpl.
      apply list_elem_of_here.
  - intros f Hf. rewrite validateColumnSchemas_cells in Hf.
    apply elem_of_tableFailures in Hf as (i & r & j & c & Hi & Hj & Hf).
    apply cellSchemaFailures_inv in Hf as (e & He & Hf).
    exists i, r, j, c, e. split; [by destruct data|]. split; [done|].
    split; [by eapply lookup_lt_Some|].
    split; [|done]. by apply validateCellForSchema_line in Hf as [-> _].
Qed.

(** C10.  Row 0 is used as the header row only.  For every table and policy,
    the three content validators give the same result whatever row 0 of
    the table holds, and every failure they report has a line of 2 or
    more.  So when the header row passes header validation and no data cell
    violates the pattern, the schema or the encoding check, the outcome is a
    success, whatever the header cells contain. *)
Theorem header_row_is_not_examined
    (hdr : list JsString) (rows : list (list JsString)) (config : ValidationConfig) :
  (∀ row0 enabled allowed,
     validateDataRows (row0 :: rows) hdr enabled = validateDataRows (hdr :: rows) hdr enabled ∧
     validateColumnSchemas toLowerCase (row0 :: rows) hdr (headers config) =
     validateColumnSchemas toLowerCase (hdr :: rows) hdr (headers config) ∧
     validateEncoding (row0 :: rows) hdr allowed = validateEncoding (hdr :: rows) hdr allowed) ∧
  (∀ enabled allowed f,
     f ∈ validateDataRows (hdr :: rows) hdr enabled
         ++ validateColumnSchemas toLowerCase (hdr :: rows) hdr (headers config)
         ++ validateEncoding (hdr :: rows) hdr allowed →
     (2 ≤ line f)%nat) ∧
  (validateHeaders toLowerCase hdr (headers config) = None →
   (∀ i row j cell, rows !! i = Some row → row !! j = Some cell →
      cellPatternFailures hdr (S i) j cell = [] ∧
      cellSchemaFailures toLowerCase hdr (headers config) (S i) j cell = [] ∧
      cellEncodingFailures (default [] (encoding config ≫= allowedEncodings)) hdr (S i) j cell
      = []) →
   validateFile toLowerCase (Parsed (hdr :: rows)) config =
   Success (js "File validation passed successfully")).
Proof.
  split; [|split].
  - intros row0 enabled allowed.
    rewrite !validateColumnSchemas_cells, !validateEncoding_cells.
    split; [|done]. destruct enabled; [|done]. by rewrite !validateDataRows_cells.
  - intros enabled allowed f Hf.
    rewrite validateColumnSchemas_cells, validateEncoding_cells in Hf.
    apply elem_of_app in Hf as [Hf | Hf]; [|apply elem_of_app in Hf as [Hf | Hf]].
    + destruct enabled; [|by apply elem_of_nil in Hf].
      rewrite validateDataRows_cells in Hf.
      apply elem_of_tableFailures in Hf as (i & row & j & cell & _ & _ & Hf).
      apply cellPatternFailures_line in Hf as [_ ->]. lia.
    + apply elem_of_tableFailures in Hf as (i & row & j & cell & _ & _ & Hf).
      apply cellSchemaFailures_inv in Hf as (e & _ & Hf).
      apply validateCellForSchema_line in Hf as [-> _]. lia.
    + apply elem_of_tableFailures in Hf as (i & row & j & cell & _ & _ & Hf).
      apply cellEncodingFailures_line in Hf as [_ ->]. lia.
  - intros Hhdr Hclean.
    rewrite validateFile_past_gate by done.
    rewrite validateColumnSchemas_cells, validateEncoding_cells.
    rewrite !tableFailures_nil; try (intros i row j cell Hi Hj; by apply (Hclean i row j cell)).
    destruct (default true (validateSqlInjection config)); [|done].
    rewrite validateDataRows_cells.
    rewrite tableFailures_nil; [done|].
    intros i row j cell Hi Hj. by apply (Hclean i row j cell).
Qed.

End ValidatorProperties.

(** * Concrete tables *)

Lemma validateFile_concatenates_in_order_witness :
  validateHeaders asciiToLowerCase name_email (headers base_policy) = None ∧
  validateFile asciiToLowerCase (Parsed injection_table) base_policy =
  Failure (js "Validation failed: 1 issue(s) found")
    [mkFailure (js "Name") 2
       (js "Contains potentially dangerous SQL pattern (Statement terminator): "
        ++ dquote ++ js "Alice; DROP TABLE users" ++ dquote)].
Proof.
  split; [reflexivity|].
  apply (validateFile_concatenates_in_order asciiToLowerCase name_email
           [[js "Alice; DROP TABLE users"; js "a@b.com"]] base_policy).
  reflexivity.
Defined.

Lemma validateFile_header_failure_gates_witness :
  validateHeaders asciiToLowerCase [js "Name"; js "Age"; js "Email"]
    (mkHeaderConfig [js "Name"; js "Email"; js "Age"] None None None) =
  Some (mkFailure (js "Email") 1
          (js "Expected header " ++ dquote ++ js "Email" ++ dquote ++ js " at position 2, found "
           ++ dquote ++ js "Age" ++ dquote)) ∧
  validateFile asciiToLowerCase
    (Parsed [[js "Name"; js "Age"; js "Email"]; [js "x;"; js "1"; js "--"]])
    (mkValidationConfig (mkHeaderConfig [js "Name"; js "Email"; js "Age"] None None None)
       None None) =
  Failure (js "Header validation failed")
    [mkFailure (js "Email") 1
       (js "Expected header " ++ dquote ++ js "Email" ++ dquote ++ js " at position 2, found "
        ++ dquote ++ js "Age" ++ dquote)].
Proof.
  split; [reflexivity|].
  apply (validateFile_header_failure_gates asciiToLowerCase). reflexivity.
Defined.

(** C4 as the specification states it does not hold: the second cell of the
    data row is absent, its column forbids empty values, and the validator
    reports nothing (and the file is accepted). *)
Lemma absent_cell_is_not_reported :
  ragged_table !! 1%nat = Some [js "Alice"] ∧
  (length [js "Alice"] ≤ 1 < length ragged_header)%nat ∧
  mjoin (colIndexToConstraints asciiToLowerCase ragged_header ragged_policy !! 1%nat) =
  Some (mkEntry (js "Age") age_required) ∧
  allowNull age_required = Some false ∧
  validateColumnSchemas asciiToLowerCase ragged_table ragged_header ragged_policy = [] ∧
  validateFile asciiToLowerCase (Parsed ragged_table)
    (mkValidationConfig ragged_policy None None) =
  Success (js "File validation passed successfully").
Proof.
  split; [reflexivity|]. split; [simpl; lia|]. split; [by vm_compute|].
  split; [reflexivity|]. split; by vm_compute.
Qed.

Lemma validateColumnSchemas_null_check_witness :
  (js "__proto__" ∉ expectedHeaders ragged_policy) ∧
  (1 ≤ 1)%nat ∧ blank_age_table !! 1%nat = Some [js "Alice"; js "  "] ∧
  trim (js "  ") = [] ∧
  mkFailure (js "Age") 2
    (js "Column " ++ dquote ++ js "Age" ++ dquote ++ js " does not allow null or empty values")
  ∈ validateColumnSchemas asciiToLowerCase blank_age_table ragged_header ragged_policy.
Proof.
  assert (Hproto : js "__proto__" ∉ expectedHeaders ragged_policy).
  { apply (bool_decide_eq_false_1 _). by vm_compute. }
  split; [exact Hproto|]. split; [lia|]. split; [reflexivity|]. split; [reflexivity|].
  apply (proj1 (validateColumnSchemas_null_check asciiToLowerCase blank_age_table
                  ragged_header ragged_policy)
           1%nat 1%nat [js "Alice"; js "  "] (js "  ") (mkEntry (js "Age") age_required));
    [exact Hproto | lia | reflexivity | reflexivity | reflexivity | by vm_compute
     | reflexivity].
Defined.

(** C5 as the specification states it does not hold: the cell is made of
    whitespace only and is empty after trimming, and the encoding validator
    reports it. *)
Lemma whitespace_cell_is_reported :
  Forall (fun ch => isWhiteSpace ch = true) [0xA0] ∧
  trim [0xA0] = [] ∧
  validateEncoding nbsp_table [js "Name"] [UTF8] =
  [mkFailure (js "Name") 2
     (js "Contains character " ++ dquote ++ [0xA0] ++ dquote
      ++ js " (0x00A0) not allowed in specified encodings: UTF8")].
Proof.
  split; [by repeat constructor|]. split; by vm_compute.
Qed.

Lemma blank_rows_and_cells_produce_no_failure_witness :
  (∀ row cell, row ∈ tail [name_email; []; [[]; []]] → cell ∈ row → cell = []) ∧
  validateDataRows [name_email; []; [[]; []]] name_email true = [] ∧
  validateEncoding [name_email; []; [[]; []]] name_email [UTF8] = [].
Proof.
  assert (Hempty : ∀ (row : list JsString) (cell : JsString),
            row ∈ tail [name_email; []; [[]; []]] → cell ∈ row → cell = []).
  { intros row cell Hrow Hcell. simpl in Hrow.
    apply elem_of_cons in Hrow as [-> | Hrow]; [by apply elem_of_nil in Hcell|].
    apply list_elem_of_singleton in Hrow as ->.
    apply elem_of_cons in Hcell as [-> | Hcell]; [done|].
    by apply list_elem_of_singleton in Hcell as ->. }
  split; [exact Hempty|].
  apply (blank_rows_and_cells_produce_no_failure [name_email; []; [[]; []]] name_email
           true [UTF8]).
  exact Hempty.
Defined.

Lemma validateDataRows_first_match_wins_witness :
  trim (js " alice@x.com--comment ") ≠ [] ∧
  cellPatternFailures name_email 1 1 (js " alice@x.com--comment ") =
  [mkFailure (js "Email") 2
     (js "Contains potentially dangerous SQL pattern (SQL comment): "
      ++ dquote ++ js "alice@x.com--comment" ++ dquote)].
Proof.
  assert (Hne : trim (js " alice@x.com--comment ") ≠ []) by by vm_compute.
  split; [exact Hne|].
  destruct (proj1 (proj2 validateDataRows_first_match_wins)
              name_email 1%nat 1%nat (js " alice@x.com--comment ") Hne)
    as (_ & _ & Hfirst).
  apply (Hfirst 1%nat (mkRegExp (lit "--") false) (js "SQL comment")).
  - reflexivity.
  - by vm_compute.
  - intros j entry Hj Hentry. destruct j as [|j]; [|lia].
    injection Hentry as <-. by vm_compute.
Defined.

Lemma validateCellForSchema_number_witness :
  type age_required = Some TNumber ∧
  trim (js " '-3.14' ") ≠ [] ∧
  spec_strip_quotes (trim (js " '-3.14' ")) = js "-3.14" ∧
  stripSurroundingQuotes (trim (js " '-3.14' ")) = js "-3.14" ∧
  (validateCellForSchema asciiToLowerCase (js " '-3.14' ") age_required (js "Age") 2 = None
   ↔ spec_number_grammar (js "-3.14")).
Proof.
  assert (Hne : trim (js " '-3.14' ") ≠ []) by by vm_compute.
  split; [reflexivity|]. split; [exact Hne|]. split; [reflexivity|].
  destruct (proj1 (validateCellForSchema_number asciiToLowerCase)
              (js " '-3.14' ") age_required (js "Age") 2%nat eq_refl Hne)
    as (Hstrip & Hiff & _).
  split; [exact Hstrip | exact Hiff].
Defined.

Lemma validateHeaders_missing_headers_witness :
  (∃ e, e ∈ [js "Name"; js "Email"; js "Age"]
        ∧ trim e ∉ List.map trim [js " Age "; js "Name"]) ∧
  validateHeaders asciiToLowerCase [js " Age "; js "Name"]
    (mkHeaderConfig [js "Name"; js "Email"; js "Age"] (Some false) None None) =
  Some (mkFailure (js "headers") 1 (js "Missing required headers: Email")).
Proof.
  assert (Hmissing : ∃ e, e ∈ [js "Name"; js "Email"; js "Age"]
                          ∧ trim e ∉ List.map trim [js " Age "; js "Name"]).
  { exists (js "Email"). split.
    - apply list_elem_of_further, list_elem_of_here.
    - apply (bool_decide_eq_false_1 _). by vm_compute. }
  split; [exact Hmissing|].
  apply (validateHeaders_missing_headers asciiToLowerCase [js " Age "; js "Name"]
           (mkHeaderConfig [js "Name"; js "Email"; js "Age"] (Some false) None None)).
  exact Hmissing.
Defined.

Lemma validateEncoding_union_of_ranges_witness :
  Forall (fun c => isValid [UTF8; ASCII] c = true) (js "Caf") ∧
  isValid [UTF8; ASCII] 0xE9 = false ∧
  cellEncodingFailures [UTF8; ASCII] name_email 1 0 cafe =
  [mkFailure (js "Name") 2
     (js "Contains character " ++ dquote ++ [0xE9] ++ dquote
      ++ js " (0x00E9) not allowed in specified encodings: UTF8, ASCII")].
Proof.
  assert (Hvalid : Forall (fun c => isValid [UTF8; ASCII] c = true) (js "Caf")).
  { by repeat constructor. }
  split; [exact Hvalid|]. split; [reflexivity|].
  destruct (proj1 (proj2 (proj2 (proj2 validateEncoding_union_of_ranges)))
              [UTF8; ASCII] name_email 1%nat 0%nat cafe ltac:(done))
    as [_ Hfirst].
  apply (Hfirst (js "Caf") 0xE9 []); [reflexivity | exact Hvalid | reflexivity].
Defined.

Lemma header_row_is_not_examined_witness :
  test (mkRegExp (lit ";") false) odd_header = true ∧
  test NUMBER_PATTERN odd_header = false ∧
  isValid [UTF8] 0xE9 = false ∧
  validateHeaders asciiToLowerCase [odd_header] (headers odd_policy) = None ∧
  validateFile asciiToLowerCase (Parsed odd_table) odd_policy =
  Success (js "File validation passed successfully").
Proof.
  split; [by vm_compute|]. split; [by vm_compute|]. split; [reflexivity|].
  assert (Hhdr : validateHeaders asciiToLowerCase [odd_header] (headers odd_policy) = None)
    by by vm_compute.
  split; [exact Hhdr|].
  apply (proj2 (proj2 (header_row_is_not_examined asciiToLowerCase [odd_header]
                         [[js "42"]] odd_policy)) Hhdr).
  intros i row j cell Hi Hj.
  destruct i as [|i]; [|done]. injection Hi as <-.
  destruct j as [|j]; [|done]. injection Hj as <-.
  by vm_compute.
Defined.

(** * Further properties *)

(** ** Loops with an early return *)

Lemma forLoopReturn_None {R : Type} (body : nat → option R) : ∀ count start,
  forLoopReturn count start body = None ↔
  ∀ i, (start ≤ i < start + count)%nat → body i = None.
Proof.
  induction count as [|n IH]; intros start; simpl.
  - split; [intros _ i Hi; lia | done].
  - destruct (body start) as [r|] eqn:Hstart.
    + split; [done|]. intros H. rewrite H in Hstart by lia. done.
    + rewrite IH. split.
      * intros H i Hi. destruct (decide (i = start)) as [-> | Hne]; [done|]. apply H. lia.
      * intros H i Hi. apply H. lia.
Qed.

Lemma forLoopReturn_first {R : Type} (body : nat → option R) (r : R) : ∀ count start i,
  (start ≤ i < start + count)%nat →
  body i = Some r →
  (∀ j, (start ≤ j < i)%nat → body j = None) →
  forLoopReturn count start body = Some r.
Proof.
  induction count as [|n IH]; intros start i Hi Hbody Hearlier; simpl; [lia|].
  destruct (decide (i = start)) as [-> | Hne].
  - by rewrite Hbody.
  - rewrite (Hearlier start) by lia. apply (IH (S start) i); [lia | done |].
    intros j Hj. apply Hearlier. lia.
Qed.

Lemma forLoopReturn_Some {R : Type} (body : nat → option R) (r : R) : ∀ count start,
  forLoopReturn count start body = Some r →
  ∃ i, (start ≤ i < start + count)%nat ∧ body i = Some r
       ∧ ∀ j, (start ≤ j < i)%nat → body j = None.
Proof.
  induction count as [|n IH]; intros start; simpl; [done|].
  destruct (body start) as [r'|] eqn:Hstart.
  - intros [= ->]. exists start. split; [lia|]. split; [done|]. intros j Hj. lia.
  - intros (i & Hi & Hbody & Hearlier)%IH. exists i. split; [lia|]. split; [done|].
    intros j Hj. destruct (decide (j = start)) as [-> | Hne]; [done|]. apply Hearlier. lia.
Qed.

Section FurtherProperties.

Variable toLowerCase : JsString -> JsString.

(** ** The header validator *)

Lemma validateHeaders_unfold hdr config :
  let norm := normalize toLowerCase (default false (caseInsensitive config)) in
  let expected := expectedHeaders config in
  validateHeaders toLowerCase hdr config =
  if (0 <? length (missingOf toLowerCase hdr config))%nat then
    Some (mkFailure (js "headers") 1
            (js "Missing required headers: " ++ join (js ", ") (missingOf toLowerCase hdr config)))
  else if default true (strictOrder config) then
    if negb (length (List.map norm hdr) =? length (List.map norm expected))%nat then
      Some (mkFailure (js "headers") 1
              (js "Expected " ++ numberToString (length (List.map norm expected))
               ++ js " headers, found " ++ numberToString (length (List.map norm hdr))))
    else
      forLoopReturn (length (List.map norm hdr)) 0 (fun i =>
        if bool_decide (List.map norm hdr !! i ≠ List.map norm expected !! i) then
          Some (mkFailure
                  (orElse (expected !! i) (js "column " ++ numberToString (i + 1)))
                  1
                  (js "Expected header " ++ dquote ++ template (expected !! i)
                   ++ dquote ++ js " at position " ++ numberToString (i + 1)
                   ++ js ", found " ++ dquote ++ template (hdr !! i) ++ dquote))
        else None)
  else None.
Proof.
  intros norm expected. unfold validateHeaders. cbv zeta. unfold forEach. fold norm.
  pose proof (missingHeaders_loop (fun x => negb (includes (List.map norm hdr) x)) norm
                (expectedHeaders config) [] []) as Hloop.
  cbn [app length] in Hloop. rewrite Hloop. done.
Qed.

Lemma missingOf_nil hdr config :
  let norm := normalize toLowerCase (default false (caseInsensitive config)) in
  missingOf toLowerCase hdr config = [] ↔
  ∀ e, e ∈ expectedHeaders config → norm e ∈ List.map norm hdr.
Proof.
  intros norm. unfold missingOf. fold norm. split.
  - intros Hnil e He.
    destruct (decide (norm e ∈ List.map norm hdr)) as [|Hnot]; [done|].
    assert (Hin : In e (List.filter (fun e => negb (includes (List.map norm hdr) (norm e)))
                          (expectedHeaders config))).
    { apply filter_In. split; [by apply list_elem_of_In|].
      unfold includes. by rewrite negb_true_iff, bool_decide_eq_false. }
    rewrite Hnil in Hin. done.
  - intros Hall. destruct (List.filter _ _) as [|m ms] eqn:Hm; [done|].
    assert (Hin : In m (m :: ms)) by by left.
    rewrite <- Hm in Hin. apply filter_In in Hin as [Hin Habs].
    unfold includes in Habs. rewrite negb_true_iff, bool_decide_eq_false in Habs.
    destruct Habs. apply Hall. by apply list_elem_of_In.
Qed.

(** X1.  With strictOrder false, the header validator accepts a header row
    if and only if the normalized form of every expected header occurs
    somewhere in the normalized row; extra columns, repeated columns and
    any order are accepted. *)
Theorem validateHeaders_any_order_iff (hdr : list JsString) (config : HeaderConfig) :
  strictOrder config = Some false →
  let norm := normalize toLowerCase (default false (caseInsensitive config)) in
  validateHeaders toLowerCase hdr config = None ↔
  ∀ e, e ∈ expectedHeaders config → norm e ∈ List.map norm hdr.
Proof.
  intros Hstrict norm. rewrite validateHeaders_unfold. cbv zeta. rewrite Hstrict. simpl default.
  pose proof (missingOf_nil hdr config) as Hm. cbv zeta in Hm. fold norm in Hm.
  destruct (missingOf toLowerCase hdr config) as [|m ms]; simpl.
  - split; [intros _; by apply Hm | done].
  - split; [done|]. intros H. by apply Hm in H.
Qed.

(** X2.  With strictOrder true or left out, the header validator accepts a
    header row if and only if the normalized row equals the normalized
    list of expected headers, position by position. *)
Theorem validateHeaders_strict_iff (hdr : list JsString) (config : HeaderConfig) :
  strictOrder config ≠ Some false →
  let norm := normalize toLowerCase (default false (caseInsensitive config)) in
  validateHeaders toLowerCase hdr config = None ↔
  List.map norm hdr = List.map norm (expectedHeaders config).
Proof.
  intros Hstrict norm.
  assert (Hs : default true (strictOrder config) = true).
  { destruct (strictOrder config) as [[]|]; done. }
  rewrite validateHeaders_unfold. cbv zeta. rewrite Hs. fold norm. split.
  - destruct (0 <? length (missingOf toLowerCase hdr config))%nat; [done|].
    destruct (length (List.map norm hdr) =? length (List.map norm (expectedHeaders config)))%nat
      eqn:Hlen; [|done]. simpl negb. cbv iota.
    apply Nat.eqb_eq in Hlen. intros Hloop.
    apply list_eq. intros i.
    destruct (decide (i < length (List.map norm hdr))%nat) as [Hi | Hi].
    + pose proof (proj1 (forLoopReturn_None _ _ _) Hloop i ltac:(lia)) as Hbody.
      simpl in Hbody. case_bool_decide as Hdec; [done|].
      first [exact Hdec | by apply dec_stable].
    + rewrite !lookup_ge_None_2; [done | lia | lia].
  - intros Heq.
    assert (Hmissing : missingOf toLowerCase hdr config = []).
    { apply missingOf_nil. intros e He. fold norm. rewrite Heq.
      apply list_elem_of_In, in_map. by apply list_elem_of_In. }
    rewrite Hmissing. simpl. rewrite Heq, Nat.eqb_refl. simpl.
    apply forLoopReturn_None. intros i _. simpl.
    by rewrite bool_decide_eq_false_2 by (intros H; by apply H).
Qed.

(** X3.  Under strict order, when every expected header is present but the
    row has another number of cells than the expected list, the validator
    returns the failure with column "headers", line 1 and reason "Expected
    <n> headers, found <m>". *)
Theorem validateHeaders_count_mismatch (hdr : list JsString) (config : HeaderConfig) :
  strictOrder config ≠ Some false →
  let norm := normalize toLowerCase (default false (caseInsensitive config)) in
  (∀ e, e ∈ expectedHeaders config → norm e ∈ List.map norm hdr) →
  length hdr ≠ length (expectedHeaders config) →
  validateHeaders toLowerCase hdr config =
  Some (mkFailure (js "headers") 1
          (js "Expected " ++ numberToString (length (expectedHeaders config))
           ++ js " headers, found " ++ numberToString (length hdr))).
Proof.
  intros Hstrict norm Hpresent Hlen.
  assert (Hs : default true (strictOrder config) = true).
  { destruct (strictOrder config) as [[]|]; done. }
  rewrite validateHeaders_unfold. cbv zeta. rewrite Hs. fold norm.
  rewrite (proj2 (missingOf_nil hdr config) Hpresent). simpl.
  rewrite !length_map. by rewrite (proj2 (Nat.eqb_neq _ _) Hlen).
Qed.

(** X4.  Under strict order, when every expected header is present and the
    counts agree, the validator reports the first position whose
    normalized cells differ: the column is the expected header there (or
    "column <n>" when that name is empty), and the reason names the
    expected and the found header with the 1-based position. *)
Theorem validateHeaders_first_mismatch (hdr : list JsString) (config : HeaderConfig)
    (i : nat) (expected found : JsString) :
  strictOrder config ≠ Some false →
  let norm := normalize toLowerCase (default false (caseInsensitive config)) in
  (∀ e, e ∈ expectedHeaders config → norm e ∈ List.map norm hdr) →
  length hdr = length (expectedHeaders config) →
  expectedHeaders config !! i = Some expected →
  hdr !! i = Some found →
  norm found ≠ norm expected →
  (∀ j h e, (j < i)%nat → hdr !! j = Some h → expectedHeaders config !! j = Some e →
            norm h = norm e) →
  validateHeaders toLowerCase hdr config =
  Some (mkFailure
          (if isEmptyString expected then js "column " ++ numberToString (i + 1) else expected)
          1
          (js "Expected header " ++ dquote ++ expected ++ dquote ++ js " at position "
           ++ numberToString (i + 1) ++ js ", found " ++ dquote ++ found ++ dquote)).
Proof.
  intros Hstrict norm Hpresent Hlen Hexp Hfound Hdiff Hearlier.
  assert (Hs : default true (strictOrder config) = true).
  { destruct (strictOrder config) as [[]|]; done. }
  rewrite validateHeaders_unfold. cbv zeta. rewrite Hs. fold norm.
  rewrite (proj2 (missingOf_nil hdr config) Hpresent). simpl.
  rewrite !length_map, Hlen, Nat.eqb_refl. simpl.
  apply (forLoopReturn_first _ _ _ 0%nat i).
  - apply lookup_lt_Some in Hexp. lia.
  - simpl. rewrite !lookup_map, Hexp, Hfound. simpl.
    rewrite bool_decide_eq_true_2 by congruence.
    by destruct expected.
  - intros j Hj. simpl. rewrite !lookup_map.
    case_bool_decide as Hd; [exfalso | done]. apply Hd.
    destruct (hdr !! j) as [h|] eqn:Hh, (expectedHeaders config !! j) as [e|] eqn:He; simpl.
    + f_equal. apply (Hearlier j h e); [lia | done | done].
    + apply lookup_lt_Some in Hh. apply lookup_ge_None in He. lia.
    + apply lookup_lt_Some in He. apply lookup_ge_None in Hh. lia.
    + done.
Qed.

(** X5.  Turning strictOrder off never rejects a header row that was
    accepted, and a rejection without strict order (missing headers) is
    the very same failure with it. *)
Theorem validateHeaders_relaxing_order (hdr : list JsString) (config : HeaderConfig) :
  let relaxed :=
    mkHeaderConfig (expectedHeaders config) (Some false) (caseInsensitive config)
      (columnSchemas config) in
  (∀ f, validateHeaders toLowerCase hdr relaxed = Some f →
        validateHeaders toLowerCase hdr config = Some f) ∧
  (validateHeaders toLowerCase hdr config = None →
   validateHeaders toLowerCase hdr relaxed = None).
Proof.
  intros relaxed.
  assert (Hmissing : missingOf toLowerCase hdr relaxed = missingOf toLowerCase hdr config) by done.
  rewrite !validateHeaders_unfold. cbv zeta. rewrite Hmissing.
  change (expectedHeaders relaxed) with (expectedHeaders config).
  change (strictOrder relaxed) with (Some false). simpl default.
  destruct (0 <? length (missingOf toLowerCase hdr config))%nat; [done|]. split; [done|]. done.
Qed.

Lemma validateHeaders_line hdr config f :
  validateHeaders toLowerCase hdr config = Some f → line f = 1%nat.
Proof.
  rewrite validateHeaders_unfold. cbv zeta.
  destruct (0 <? _)%nat; [by intros [= <-]|].
  destruct (default true (strictOrder config)); [|done].
  destruct (negb _); [by intros [= <-]|].
  intros (i & _ & Hbody & _)%forLoopReturn_Some. simpl in Hbody.
  case_bool_decide; [|done]. by injection Hbody as <-.
Qed.
(** ** The filtered column schemas *)

Lemma getFilteredColumnSchemas_fold config :
  getFilteredColumnSchemas toLowerCase config =
  fold_left (filterStep toLowerCase config) (default [] (columnSchemas config)) ∅.
Proof.
  unfold getFilteredColumnSchemas. destruct (columnSchemas config) as [schemas|]; [|done].
  by destruct schemas.
Qed.

Lemma canonicalKey_found config key :
  let norm := normalize toLowerCase (default false (caseInsensitive config)) in
  includes (List.map norm (expectedHeaders config)) (norm key) = true →
  canonicalKey toLowerCase config key ∈ expectedHeaders config ∧
  norm (canonicalKey toLowerCase config key) = norm key.
Proof.
  intros norm Hinc. unfold canonicalKey. fold norm.
  destruct (List.find _ _) as [h|] eqn:Hfind.
  - apply find_some in Hfind as [Hin Heq]. apply bool_decide_eq_true in Heq.
    split; [by apply list_elem_of_In | done].
  - exfalso. unfold includes in Hinc. apply bool_decide_eq_true in Hinc.
    apply list_elem_of_In, in_map_iff in Hinc as (h & Heq & Hin).
    pose proof (find_none _ _ Hfind h Hin) as Hnone. simpl in Hnone.
    by rewrite bool_decide_eq_true_2 in Hnone.
Qed.

Lemma filterStep_fold_inv config schemas : ∀ acc k c,
  let norm := normalize toLowerCase (default false (caseInsensitive config)) in
  fold_left (filterStep toLowerCase config) schemas acc !! k = Some c →
  acc !! k = Some c ∨
  (k ∈ expectedHeaders config ∧ ∃ key, (key, c) ∈ schemas ∧ norm key = norm k).
Proof.
  induction schemas as [|[key0 c0] rest IH]; intros acc k c norm; simpl; [by left|].
  intros [Hacc | (Hk & key & Hin & Heq)]%IH.
  - unfold filterStep in Hacc. simpl in Hacc. fold norm in Hacc.
    destruct (includes _ (norm key0)) eqn:Hinc; [|by left].
    destruct (decide (canonicalKey toLowerCase config key0 = k)) as [<- | Hne].
    + rewrite lookup_insert_eq in Hacc. injection Hacc as <-. right.
      destruct (canonicalKey_found config key0 Hinc) as [Hin Heq].
      split; [done|]. exists key0. split; [apply list_elem_of_here | done].
    + rewrite lookup_insert_ne in Hacc by done. by left.
  - right. split; [done|]. exists key. split; [by apply list_elem_of_further | done].
Qed.

Lemma filterStep_fold_untouched config schemas : ∀ acc k,
  let norm := normalize toLowerCase (default false (caseInsensitive config)) in
  (∀ key c, (key, c) ∈ schemas → norm key ≠ norm k) →
  fold_left (filterStep toLowerCase config) schemas acc !! k = acc !! k.
Proof.
  induction schemas as [|[key0 c0] rest IH]; intros acc k norm Hother; simpl; [done|].
  rewrite IH by (intros key c Hin; apply (Hother key c); by apply list_elem_of_further).
  unfold filterStep. simpl. fold norm.
  destruct (includes _ (norm key0)) eqn:Hinc; [|done].
  apply lookup_insert_ne. intros <-.
  destruct (canonicalKey_found config key0 Hinc) as [_ Heq].
  by apply (Hother key0 c0); [apply list_elem_of_here|].
Qed.

Lemma filtered_entry_origin
    (config : HeaderConfig) (k : JsString) (c : ColumnConstraints) :
  getFilteredColumnSchemas toLowerCase config !! k = Some c →
  let norm := normalize toLowerCase (default false (caseInsensitive config)) in
  k ∈ expectedHeaders config ∧
  ∃ schemas key, columnSchemas config = Some schemas ∧ (key, c) ∈ schemas
                 ∧ norm key = norm k.
Proof.
  rewrite getFilteredColumnSchemas_fold. intros Hk norm.
  apply filterStep_fold_inv in Hk as [Hempty | (Hin & key & Hkey & Heq)]; [done|].
  split; [done|]. destruct (columnSchemas config) as [schemas|]; simpl in Hkey.
  - by exists schemas, key.
  - by apply elem_of_nil in Hkey.
Qed.

(** X6.  When the normalized forms of the configured schema keys are
    pairwise distinct, the constraints of a key are stored under the first
    expected header that has the key's normalized form, so looking that
    header up gives back exactly those constraints. *)
Theorem getFilteredColumnSchemas_lookup
    (config : HeaderConfig) (schemas : list (JsString * ColumnConstraints))
    (key h : JsString) (c : ColumnConstraints) :
  let norm := normalize toLowerCase (default false (caseInsensitive config)) in
  columnSchemas config = Some schemas →
  NoDup (List.map (fun entry => norm entry.1) schemas) →
  (key, c) ∈ schemas →
  List.find (fun h => bool_decide (norm h = norm key)) (expectedHeaders config) = Some h →
  getFilteredColumnSchemas toLowerCase config !! h = Some c.
Proof.
  intros norm Hschemas Hnodup Hin Hfind.
  rewrite getFilteredColumnSchemas_fold, Hschemas. simpl default.
  assert (Hcanon : canonicalKey toLowerCase config key = h).
  { unfold canonicalKey. fold norm. by rewrite Hfind. }
  assert (Hinc : includes (List.map norm (expectedHeaders config)) (norm key) = true).
  { apply find_some in Hfind as [Hh Heq]. apply bool_decide_eq_true in Heq.
    unfold includes. apply bool_decide_eq_true. rewrite <- Heq.
    apply list_elem_of_In, in_map, Hh. }
  assert (Hnorm : norm h = norm key).
  { apply find_some in Hfind as [_ Heq]. by apply bool_decide_eq_true in Heq. }
  clear Hschemas Hfind. generalize (∅ : gmap JsString ColumnConstraints).
  induction schemas as [|[key0 c0] rest IH]; intros acc; [by apply elem_of_nil in Hin|].
  simpl in Hnodup. apply NoDup_cons in Hnodup as [Hfresh Hnodup].
  apply elem_of_cons in Hin as [[= <- <-] | Hin]; simpl.
  - rewrite filterStep_fold_untouched.
    + unfold filterStep. simpl. fold norm. rewrite Hinc, Hcanon. apply lookup_insert_eq.
    + intros key' c' Hin' Heq. fold norm in Heq. apply Hfresh.
      rewrite <- Hnorm, <- Heq. apply list_elem_of_In. apply (in_map (fun entry => norm entry.1) rest (key', c')).
      by apply list_elem_of_In.
  - by apply IH.
Qed.

(** X7.  If no configured schema key normalizes to an expected header, the
    filtered schemas are empty and the column schema validator reports
    nothing, whatever the table holds. *)
Theorem unknown_schema_keys_are_dropped
    (data : list (list JsString)) (hdr : list JsString) (config : HeaderConfig) :
  let norm := normalize toLowerCase (default false (caseInsensitive config)) in
  (∀ schemas key c, columnSchemas config = Some schemas → (key, c) ∈ schemas →
                    norm key ∉ List.map norm (expectedHeaders config)) →
  getFilteredColumnSchemas toLowerCase config = ∅ ∧
  validateColumnSchemas toLowerCase data hdr config = [].
Proof.
  intros norm Hunknown.
  assert (Hempty : getFilteredColumnSchemas toLowerCase config = ∅).
  { apply map_eq. intros k. rewrite lookup_empty.
    destruct (getFilteredColumnSchemas toLowerCase config !! k) as [c|] eqn:Hk; [|done].
    apply filtered_entry_origin in Hk
      as (Hin & schemas & key & Hs & Hkey & Heq).
    destruct (Hunknown schemas key c Hs Hkey). fold norm in Heq. rewrite Heq.
    apply list_elem_of_In, in_map. by apply list_elem_of_In. }
  split; [done|]. by apply validateColumnSchemas_unconfigured.
Qed.

(** X8.  If every configured constraint has type string (or none) and does
    not set allowNull to false, the column schema validator reports
    nothing: spelling out the defaults is the same as configuring no
    schema. *)
Theorem lenient_schemas_report_nothing
    (data : list (list JsString)) (hdr : list JsString) (config : HeaderConfig) :
  (∀ schemas key c, columnSchemas config = Some schemas → (key, c) ∈ schemas → lenient c) →
  validateColumnSchemas toLowerCase data hdr config = [].
Proof.
  intros Hlenient. rewrite validateColumnSchemas_cells. apply tableFailures_nil.
  intros i row j cell _ _. unfold cellSchemaFailures.
  destruct (mjoin _) as [entry|] eqn:Hentry; [|done].
  rewrite colIndexToConstraints_lookup in Hentry.
  destruct (hdr !! j) as [header|]; simpl in Hentry; [|done].
  destruct (indexOf _ _) as [expectedIndex|]; simpl in Hentry; [|done].
  destruct (expectedHeaders config !! expectedIndex) as [k|]; simpl in Hentry; [|done].
  destruct (getFilteredColumnSchemas toLowerCase config !! k) as [c|] eqn:Hk;
    simpl in Hentry; [|done].
  injection Hentry as <-. simpl.
  apply filtered_entry_origin in Hk as (_ & schemas & key & Hs & Hkey & _).
  destruct (Hlenient schemas key c Hs Hkey) as [Htype Hnull].
  unfold validateCellForSchema. cbv zeta.
  assert (Ht : default TString (type c) = TString) by (by destruct Htype as [-> | ->]).
  assert (Hn : default true (allowNull c) = true) by (by destruct (allowNull c) as [[]|]).
  rewrite Ht, Hn. by destruct (isEmptyString (trim cell)).
Qed.

(** ** The three content validators on the whole table *)

Lemma concat_imap_length {A B : Type} (l : list A) : ∀ (f : nat → A → list B),
  (∀ j x, (length (f j x) ≤ 1)%nat) → (length (concat (imap f l)) ≤ length l)%nat.
Proof.
  induction l as [|x l IH]; intros f Hf; [simpl; lia|].
  rewrite imap_cons. cbn [concat length]. rewrite length_app.
  pose proof (Hf 0%nat x) as Hx.
  pose proof (IH (f ∘ S) (fun j y => Hf (S j) y)) as Hrest. lia.
Qed.

Lemma concat_imap_length_sum {A B : Type} (size : A → nat) (l : list A) :
  ∀ (g : nat → A → list B),
    (∀ i x, (length (g i x) ≤ size x)%nat) →
    (length (concat (imap g l)) ≤ sum_list (size <$> l))%nat.
Proof.
  induction l as [|x l IH]; intros g Hg; [simpl; lia|].
  rewrite imap_cons. cbn [concat fmap list_fmap sum_list]. rewrite length_app.
  pose proof (Hg 0%nat x) as Hx.
  pose proof (IH (g ∘ S) (fun i y => Hg (S i) y)) as Hrest. simpl. lia.
Qed.

Lemma tableFailures_length cellF rows :
  (∀ i j cell, (length (cellF i j cell) ≤ 1)%nat) →
  (length (tableFailures cellF rows) ≤ sum_list (length <$> rows))%nat.
Proof.
  intros Hcell. unfold tableFailures. apply concat_imap_length_sum.
  intros i row. apply concat_imap_length. intros j cell. apply Hcell.
Qed.

Lemma scanChars_length cell allowed hdr rowIndex colIndex :
  (length (scanChars cell allowed hdr rowIndex colIndex []) ≤ 1)%nat.
Proof.
  induction cell as [|c cell IH]; simpl; [lia|].
  destruct (isValid allowed c); simpl; [done | lia].
Qed.

Lemma cellPatternFailures_length hdr rowIndex colIndex cell :
  (length (cellPatternFailures hdr rowIndex colIndex cell) ≤ 1)%nat.
Proof.
  unfold cellPatternFailures. destruct (isEmptyString (trim cell)); [simpl; lia|].
  apply scanPatterns_length.
Qed.

Lemma cellEncodingFailures_length allowed hdr rowIndex colIndex cell :
  (length (cellEncodingFailures allowed hdr rowIndex colIndex cell) ≤ 1)%nat.
Proof.
  unfold cellEncodingFailures. destruct (length allowed =? 0)%nat; [simpl; lia|].
  apply scanChars_length.
Qed.

Lemma cellSchemaFailures_length hdr config rowIndex colIndex cell :
  (length (cellSchemaFailures toLowerCase hdr config rowIndex colIndex cell) ≤ 1)%nat.
Proof.
  unfold cellSchemaFailures. destruct (mjoin _); simpl; [|lia].
  destruct (validateCellForSchema _ _ _ _ _); simpl; lia.
Qed.

(** X10.  Each of the three content validators reports at most as many
    failures as the data rows have cells. *)
Theorem at_most_one_failure_per_cell_and_validator
    (data : list (list JsString)) (hdr : list JsString) (config : HeaderConfig)
    (enabled : bool) (allowed : list EncodingType) :
  (length (validateDataRows data hdr enabled) ≤ dataCells data)%nat ∧
  (length (validateColumnSchemas toLowerCase data hdr config) ≤ dataCells data)%nat ∧
  (length (validateEncoding data hdr allowed) ≤ dataCells data)%nat.
Proof.
  unfold dataCells. split; [|split].
  - destruct enabled; [|simpl; lia]. rewrite validateDataRows_cells.
    apply tableFailures_length. intros. apply cellPatternFailures_length.
  - rewrite validateColumnSchemas_cells.
    apply tableFailures_length. intros. apply cellSchemaFailures_length.
  - rewrite validateEncoding_cells.
    apply tableFailures_length. intros. apply cellEncodingFailures_length.
Qed.

Lemma scanPatterns_column catalog cellValue hdr rowIndex colIndex f :
  f ∈ scanPatterns catalog cellValue hdr rowIndex colIndex [] →
  column f = orElse (hdr !! colIndex) (js "Column " ++ numberToString (colIndex + 1)).
Proof.
  induction catalog as [|[pattern description] rest IH]; simpl.
  - by intros ?%elem_of_nil.
  - destruct (test pattern cellValue); [|done]. by intros ->%list_elem_of_singleton.
Qed.

Lemma scanChars_column cell allowed hdr rowIndex colIndex f :
  f ∈ scanChars cell allowed hdr rowIndex colIndex [] →
  column f = orElse (hdr !! colIndex) (js "Column " ++ numberToString (colIndex + 1)).
Proof.
  induction cell as [|c cell IH]; simpl.
  - by intros ?%elem_of_nil.
  - destruct (isValid allowed c); [done|]. by intros ->%list_elem_of_singleton.
Qed.

(** X11.  Every failure of the three content validators has a line between
    2 and the number of rows of the table, and its column is that of a
    cell present in that row: the header text at the cell's index or, for
    the pattern and encoding validators, "Column <n>" when the header
    there is missing or empty. *)
Theorem failures_point_at_data_cells
    (data : list (list JsString)) (hdr : list JsString) (config : HeaderConfig)
    (enabled : bool) (allowed : list EncodingType) (f : ValidationFailure) :
  f ∈ validateDataRows data hdr enabled
      ++ validateColumnSchemas toLowerCase data hdr config
      ++ validateEncoding data hdr allowed →
  (2 ≤ line f ≤ length data)%nat ∧
  ∃ row j, data !! (line f - 1)%nat = Some row ∧ (j < length row)%nat ∧
    (column f = orElse (hdr !! j) (js "Column " ++ numberToString (j + 1))
     ∨ hdr !! j = Some (column f)).
Proof.
  assert (Hrow : ∀ i row, tail data !! i = Some row →
            data !! (S i + 1 - 1)%nat = Some row ∧ (2 ≤ S i + 1 ≤ length data)%nat).
  { intros i row Hi. destruct data as [|row0 rows]; [done|]. simpl in Hi.
    replace (S i + 1 - 1)%nat with (S i) by lia. split; [done|].
    apply lookup_lt_Some in Hi. simpl. lia. }
  rewrite validateColumnSchemas_cells, validateEncoding_cells.
  intros [Hf | [Hf | Hf]%elem_of_app]%elem_of_app.
  - destruct enabled; [|by apply elem_of_nil in Hf]. rewrite validateDataRows_cells in Hf.
    apply elem_of_tableFailures in Hf as (i & row & j & cell & Hi & Hj & Hf).
    pose proof (cellPatternFailures_line _ _ _ _ _ Hf) as [_ Hline].
    destruct (Hrow i row Hi) as [Hdata Hbound]. rewrite Hline. split; [done|].
    exists row, j. split; [done|]. split; [by eapply lookup_lt_Some|]. left.
    unfold cellPatternFailures in Hf. destruct (isEmptyString (trim cell)).
    + by apply elem_of_nil in Hf.
    + by eapply scanPatterns_column.
  - apply elem_of_tableFailures in Hf as (i & row & j & cell & Hi & Hj & Hf).
    apply cellSchemaFailures_inv in Hf as (entry & Hentry & Hf).
    apply validateCellForSchema_line in Hf as [Hline Hcolumn].
    destruct (Hrow i row Hi) as [Hdata Hbound]. rewrite Hline. split; [done|].
    exists row, j. split; [done|]. split; [by eapply lookup_lt_Some|]. right.
    rewrite Hcolumn. rewrite colIndexToConstraints_lookup in Hentry.
    destruct (hdr !! j) as [header|]; simpl in Hentry; [|done].
    destruct (indexOf _ _) as [expectedIndex|]; simpl in Hentry; [|done].
    destruct (expectedHeaders config !! expectedIndex) as [key|]; simpl in Hentry; [|done].
    destruct (getFilteredColumnSchemas toLowerCase config !! key); simpl in Hentry; [|done].
    by injection Hentry as <-.
  - apply elem_of_tableFailures in Hf as (i & row & j & cell & Hi & Hj & Hf).
    pose proof (cellEncodingFailures_line _ _ _ _ _ _ Hf) as [_ Hline].
    destruct (Hrow i row Hi) as [Hdata Hbound]. rewrite Hline. split; [done|].
    exists row, j. split; [done|]. split; [by eapply lookup_lt_Some|]. left.
    unfold cellEncodingFailures in Hf. destruct (length allowed =? 0)%nat.
    + by apply elem_of_nil in Hf.
    + by eapply scanChars_column.
Qed.

Lemma constant_line_sorted (k : nat) (l : list ValidationFailure) :
  (∀ f, f ∈ l → line f = k) → StronglySorted byLine l.
Proof.
  induction l as [|f l IH]; intros Hl; constructor.
  - apply IH. intros g Hg. apply Hl. by apply list_elem_of_further.
  - apply Forall_forall. intros g Hg. unfold byLine.
    rewrite (Hl f) by apply list_elem_of_here.
    rewrite (Hl g) by by apply list_elem_of_further. done.
Qed.

Lemma blocks_sorted (rows : list (list JsString)) :
  ∀ (k : nat) (g : nat → list JsString → list ValidationFailure),
    (∀ i row f, f ∈ g i row → line f = (k + i)%nat) →
    StronglySorted byLine (concat (imap g rows)) ∧
    ∀ f, f ∈ concat (imap g rows) → (k ≤ line f)%nat.
Proof.
  induction rows as [|row rows IH]; intros k g Hg; simpl.
  - split; [constructor | by intros f ?%elem_of_nil].
  - destruct (IH (S k) (g ∘ S)) as [Hsorted Hbound].
    { intros i r f Hf. rewrite (Hg (S i) r f Hf). lia. }
    split.
    + apply StronglySorted_app_2; [|by apply (constant_line_sorted (k + 0)), Hg | done].
      intros f1 f2 Hf1 Hf2. unfold byLine. rewrite (Hg 0%nat row f1 Hf1).
      specialize (Hbound f2 Hf2). lia.
    + intros f [Hf | Hf]%elem_of_app.
      * rewrite (Hg 0%nat row f Hf). lia.
      * specialize (Hbound f Hf). lia.
Qed.

Lemma tableFailures_sorted cellF rows :
  (∀ i j cell f, f ∈ cellF i j cell → line f = (i + 1)%nat) →
  StronglySorted byLine (tableFailures cellF rows).
Proof.
  intros Hline. unfold tableFailures.
  apply (blocks_sorted rows 2
           (fun i row => concat (imap (fun j cell => cellF (S i) j cell) row))).
  intros i row f (j & cell & _ & Hf)%elem_of_concat_imap.
  rewrite (Hline _ _ _ _ Hf). lia.
Qed.

(** X12.  Each of the three content validators returns its failures in row
    order: the line numbers along the returned sequence never decrease. *)
Theorem failures_are_in_row_order
    (data : list (list JsString)) (hdr : list JsString) (config : HeaderConfig)
    (enabled : bool) (allowed : list EncodingType) :
  StronglySorted byLine (validateDataRows data hdr enabled) ∧
  StronglySorted byLine (validateColumnSchemas toLowerCase data hdr config) ∧
  StronglySorted byLine (validateEncoding data hdr allowed).
Proof.
  split; [|split].
  - destruct enabled; [|constructor]. rewrite validateDataRows_cells.
    apply tableFailures_sorted. intros i j cell f Hf.
    by apply cellPatternFailures_line in Hf as [_ ?].
  - rewrite validateColumnSchemas_cells. apply tableFailures_sorted. intros i j cell f Hf.
    apply cellSchemaFailures_inv in Hf as (entry & _ & Hf).
    by apply validateCellForSchema_line in Hf as [? _].
  - rewrite validateEncoding_cells. apply tableFailures_sorted. intros i j cell f Hf.
    by apply cellEncodingFailures_line in Hf as [_ ?].
Qed.

Lemma tableFailures_app cellF rows more :
  tableFailures cellF (rows ++ more) =
  tableFailures cellF rows
  ++ tableFailures (fun i j cell => cellF (length rows + i)%nat j cell) more.
Proof.
  unfold tableFailures. rewrite imap_app, concat_app. do 2 f_equal.
  apply imap_ext. intros i row _. simpl. by rewrite Nat.add_succ_r.
Qed.

(** X13.  Appending rows to a table leaves what each content validator
    reports for the earlier rows unchanged: the result on the shorter
    table is a prefix of the result on the longer one. *)
Theorem appended_rows_leave_earlier_failures
    (data more : list (list JsString)) (hdr : list JsString) (config : HeaderConfig)
    (enabled : bool) (allowed : list EncodingType) :
  validateDataRows data hdr enabled `prefix_of` validateDataRows (data ++ more) hdr enabled ∧
  validateColumnSchemas toLowerCase data hdr config
    `prefix_of` validateColumnSchemas toLowerCase (data ++ more) hdr config ∧
  validateEncoding data hdr allowed `prefix_of` validateEncoding (data ++ more) hdr allowed.
Proof.
  rewrite !validateColumnSchemas_cells, !validateEncoding_cells.
  destruct data as [|row0 rows].
  { split; [|split]; try apply prefix_nil. destruct enabled; apply prefix_nil. }
  simpl tail. rewrite !tableFailures_app. split; [|split]; try by eexists.
  destruct enabled; [|by exists []]. rewrite !validateDataRows_cells. simpl tail.
  rewrite tableFailures_app. by eexists.
Qed.

(** ** The encoding policy *)

Lemma isValid_limit allowed charCode :
  allowed ≠ [] → isValid allowed charCode = (charCode <=? limitOf allowed).
Proof.
  intros Hne. unfold isValid, limitOf.
  assert (Hzero : (0 <=? charCode) = true) by (apply N.leb_le; lia).
  assert (Hone : ∀ e, isValidForEncoding charCode e
                      = (charCode <=? (if isWide e then 255 else 127))).
  { intros e. unfold isValidForEncoding. destruct e; simpl; by rewrite Hzero. }
  induction allowed as [|e allowed IH]; [done|]. simpl. rewrite Hone.
  destruct allowed as [|e' allowed'].
  - simpl. by rewrite !orb_false_r.
  - rewrite IH by done.
    destruct (isWide e), (existsb isWide (e' :: allowed')); simpl;
      destruct (N.leb_spec charCode 255), (N.leb_spec charCode 127); simpl;
      first [done | lia].
Qed.

(** X14.  Under a non-empty list of allowed encodings a character is valid
    exactly when its code is at most 0xFF if LATIN1 or WINDOWS1252 is
    allowed and at most 0x7F otherwise; so codes up to 0x7F are always
    valid and codes above 0xFF never are. *)
Theorem isValid_is_a_threshold (allowed : list EncodingType) (charCode : N) :
  allowed ≠ [] →
  isValid allowed charCode = (charCode <=? limitOf allowed) ∧
  (charCode ≤ 0x7F → isValid allowed charCode = true) ∧
  (0xFF < charCode → isValid allowed charCode = false).
Proof.
  intros Hne. rewrite isValid_limit by done. split; [done|].
  unfold limitOf. destruct (existsb isWide allowed); split; intros H;
    first [apply N.leb_le; lia | apply N.leb_gt; lia].
Qed.

Lemma concat_imap_length_mono {A B : Type} (l : list A) : ∀ (f g : nat → A → list B),
  (∀ i x, (length (f i x) ≤ length (g i x))%nat) →
  (length (concat (imap f l)) ≤ length (concat (imap g l)))%nat.
Proof.
  induction l as [|x l IH]; intros f g Hfg; [done|].
  rewrite !imap_cons. cbn [concat]. rewrite !length_app.
  pose proof (Hfg 0%nat x). pose proof (IH (f ∘ S) (g ∘ S) (fun i y => Hfg (S i) y)).
  lia.
Qed.

Lemma tableFailures_length_mono cellF cellG rows :
  (∀ i j cell, (length (cellF i j cell) ≤ length (cellG i j cell))%nat) →
  (length (tableFailures cellF rows) ≤ length (tableFailures cellG rows))%nat.
Proof.
  intros Hcell. unfold tableFailures. apply concat_imap_length_mono.
  intros i row. apply concat_imap_length_mono. intros j cell. apply Hcell.
Qed.

Lemma scanChars_flagged cell allowed hdr rowIndex colIndex :
  scanChars cell allowed hdr rowIndex colIndex [] = [] ∧
    Forall (fun c => isValid allowed c = true) cell
  ∨ length (scanChars cell allowed hdr rowIndex colIndex []) = 1%nat ∧
    ¬ Forall (fun c => isValid allowed c = true) cell.
Proof.
  destruct (decide (Forall (fun c => isValid allowed c = true) cell)) as [Hall | Hnot].
  - left. split; [by apply scanChars_valid | done].
  - right. split; [|done].
    apply first_invalid in Hnot as (pre & ch & post & -> & Hpre & Hch).
    by rewrite scanChars_first.
Qed.

(** X15.  Adding encodings to a non-empty list of allowed encodings never
    makes the encoding validator report more failures. *)
Theorem wider_policy_reports_fewer_cells
    (data : list (list JsString)) (hdr : list JsString)
    (allowed allowed' : list EncodingType) :
  allowed ≠ [] →
  (∀ e, e ∈ allowed → e ∈ allowed') →
  (length (validateEncoding data hdr allowed') ≤ length (validateEncoding data hdr allowed))%nat.
Proof.
  intros Hne Hincl. rewrite !validateEncoding_cells. apply tableFailures_length_mono.
  intros i j cell. unfold cellEncodingFailures.
  destruct allowed as [|e0 allowed0]; [done|].
  destruct allowed' as [|e0' allowed0']; [simpl; lia|]. simpl length. cbv iota.
  destruct (scanChars_flagged cell (e0' :: allowed0') hdr i j) as [[-> _] | [-> Hnot']];
    [simpl; lia|].
  destruct (scanChars_flagged cell (e0 :: allowed0) hdr i j) as [[_ Hall] | [-> _]]; [|done].
  destruct Hnot'. eapply Forall_impl; [exact Hall|]. intros ch Hch.
  apply isValid_spec in Hch as (e & He & Hrange). apply isValid_spec. exists e. auto.
Qed.

Lemma scanChars_position cell allowed allowed' hdr rowIndex colIndex :
  (∀ ch, isValid allowed ch = isValid allowed' ch) →
  position <$> scanChars cell allowed hdr rowIndex colIndex [] =
  position <$> scanChars cell allowed' hdr rowIndex colIndex [].
Proof.
  intros Hsame. induction cell as [|c cell IH]; [done|]. simpl.
  rewrite <- Hsame. by destruct (isValid allowed c).
Qed.

Lemma tableFailures_position cellF cellG rows :
  (∀ i j cell, position <$> cellF i j cell = position <$> cellG i j cell) →
  position <$> tableFailures cellF rows = position <$> tableFailures cellG rows.
Proof.
  intros Hcell. unfold tableFailures.
  assert (Hgen : ∀ {A : Type} (l : list A) (f g : nat → A → list ValidationFailure),
            (∀ i x, position <$> f i x = position <$> g i x) →
            position <$> concat (imap f l) = position <$> concat (imap g l)).
  { intros A l. induction l as [|x l IH]; intros f g Hfg; [done|].
    rewrite !imap_cons. cbn [concat]. rewrite !fmap_app, Hfg.
    f_equal. apply (IH (f ∘ S) (g ∘ S)). intros i y. apply Hfg. }
  apply Hgen. intros i row. apply Hgen. intros j cell. apply Hcell.
Qed.

(** X16.  Two non-empty lists of allowed encodings with the same largest
    allowed code (for instance UTF8 against ASCII and UTF16) make the
    encoding validator flag the same cells: the failures have the same
    columns and lines, in the same order. *)
Theorem encodings_with_equal_limits_flag_the_same_cells
    (data : list (list JsString)) (hdr : list JsString)
    (allowed allowed' : list EncodingType) :
  allowed ≠ [] → allowed' ≠ [] →
  limitOf allowed = limitOf allowed' →
  position <$> validateEncoding data hdr allowed =
  position <$> validateEncoding data hdr allowed'.
Proof.
  intros Hne Hne' Hlimit. rewrite !validateEncoding_cells. apply tableFailures_position.
  intros i j cell. unfold cellEncodingFailures.
  destruct allowed as [|e0 allowed0]; [done|].
  destruct allowed' as [|e0' allowed0']; [done|]. simpl length. cbv iota.
  apply scanChars_position. intros ch. by rewrite !isValid_limit, Hlimit.
Qed.

(** ** What the catalog needs in order to match *)

Lemma csMatch_lit_not_letter ic c ch :
  isLetter c = false → csMatch ic (CsLit c) ch = true → ch = c.
Proof.
  unfold isLetter, csMatch, asciiUpper. intros Hc Hm.
  apply orb_false_iff in Hc as [Hupper Hlower].
  rewrite Hlower in Hm.
  destruct ic; [|by apply N.eqb_eq in Hm].
  apply N.eqb_eq in Hm.
  destruct ((97 <=? ch) && (ch <=? 122)) eqn:Hch; [|done].
  apply andb_true_iff in Hch as [H1%N.leb_le H2%N.leb_le].
  apply andb_false_iff in Hupper as [H%N.leb_gt | H%N.leb_gt]; lia.
Qed.

Lemma requires_sound lits spaces ic r : ∀ b w rest,
  requires lits spaces r = true →
  Matches ic r b w rest →
  ∃ ch, ch ∈ w ∧ (ch ∈ lits ∨ spaces = true ∧ isWhiteSpace ch = true).
Proof.
  induction r as [| | |cs|r1 IH1 r2 IH2|r1 IH1 r2 IH2|cs]; intros b w rest Hreq Hm;
    simpl in Hreq; try done.
  - destruct cs as [c| | |]; try done.
    + apply andb_true_iff in Hreq as [Hin%bool_decide_eq_true Hletter%negb_true_iff].
      destruct Hm as (ch & -> & Hch). apply csMatch_lit_not_letter in Hch as ->; [|done].
      exists c. split; [apply list_elem_of_here | by left].
    + destruct Hm as (ch & -> & Hch). exists ch.
      split; [apply list_elem_of_here | by right].
  - destruct Hm as (w1 & w2 & -> & H1 & H2).
    apply orb_true_iff in Hreq as [Hreq | Hreq].
    + destruct (IH1 _ _ _ Hreq H1) as (ch & Hch & Hbad). exists ch.
      split; [|done]. apply elem_of_app. by left.
    + destruct (IH2 _ _ _ Hreq H2) as (ch & Hch & Hbad). exists ch.
      split; [|done]. apply elem_of_app. by right.
  - apply andb_true_iff in Hreq as [Hreq1 Hreq2].
    destruct Hm as [Hm | Hm]; [by eapply IH1 | by eapply IH2].
Qed.

Lemma test_requires lits spaces re v :
  requires lits spaces (source re) = true →
  test re v = true →
  ∃ ch, ch ∈ v ∧ (ch ∈ lits ∨ spaces = true ∧ isWhiteSpace ch = true).
Proof.
  intros Hreq (pre & w & post & -> & Hm)%test_spec.
  destruct (requires_sound _ _ _ _ _ _ _ Hreq Hm) as (ch & Hch & Hbad).
  exists ch. split; [|done]. rewrite !elem_of_app. auto.
Qed.

Lemma test_semicolon v : test (mkRegExp (lit ";") false) v = true ↔ 59 ∈ v.
Proof.
  rewrite test_spec. split.
  - intros (pre & w & post & -> & Hm). apply Matches_lit1 in Hm as ->.
    rewrite !elem_of_app. right. left. apply list_elem_of_here.
  - intros (pre & post & ->)%list_elem_of_split.
    exists pre, [59], post. split; [done|]. by apply Matches_lit1.
Qed.

(** X17.  A cell whose trimmed text contains a semicolon is always
    reported as "Statement terminator"; the four catalog entries that
    start with a quote followed by a semicolon can only match such a cell,
    so their descriptions are never the one reported. *)
Theorem semicolon_takes_precedence
    (hdr : list JsString) (rowIndex colIndex : nat) (cell : JsString) :
  (59 ∈ trim cell ∨
   ∃ i pattern description,
     (4 ≤ i ≤ 7)%nat ∧ SQL_DANGEROUS_PATTERNS !! i = Some (pattern, description)
     ∧ test pattern (trim cell) = true) →
  59 ∈ trim cell ∧
  cellPatternFailures hdr rowIndex colIndex cell =
  [patternFailure hdr rowIndex colIndex (trim cell) (js "Statement terminator")].
Proof.
  intros Hsemi.
  assert (H59 : 59 ∈ trim cell).
  { destruct Hsemi as [H | (i & pattern & description & Hi & Hentry & Htest)]; [done|].
    assert (Hreq : requires [59] false (source pattern) = true).
    { destruct i as [|[|[|[|[|[|[|[|i]]]]]]]]; try lia;
        injection Hentry as <- _; by vm_compute. }
    destruct (test_requires _ _ _ _ Hreq Htest) as (ch & Hch & [Hin | [? _]]); [|done].
    by apply list_elem_of_singleton in Hin as ->. }
  split; [done|].
  unfold cellPatternFailures.
  assert (Hne : isEmptyString (trim cell) = false).
  { apply isEmptyString_false. intros Hnil. rewrite Hnil in H59. by apply elem_of_nil in H59. }
  rewrite Hne.
  apply (scanPatterns_first _ _ hdr rowIndex colIndex 0
           (mkRegExp (lit ";") false) (js "Statement terminator")).
  - done.
  - by apply test_semicolon.
  - intros j entry Hj. lia.
Qed.

(** X18.  A cell whose trimmed text contains no whitespace and none of the
    characters ; - * ' NUL SUB backspace _ ( matches no entry of the
    pattern catalog and yields no pattern failure. *)
Theorem cells_without_risky_characters_pass
    (hdr : list JsString) (rowIndex colIndex : nat) (cell : JsString) :
  Forall (fun ch => isRisky ch = false) (trim cell) →
  (∀ entry, entry ∈ SQL_DANGEROUS_PATTERNS → test entry.1 (trim cell) = false) ∧
  cellPatternFailures hdr rowIndex colIndex cell = [].
Proof.
  intros Hsafe.
  assert (Hnone : ∀ entry, entry ∈ SQL_DANGEROUS_PATTERNS →
                           test entry.1 (trim cell) = false).
  { intros entry Hentry.
    assert (Hreq : requires riskyChars true (source entry.1) = true).
    { assert (Hall : forallb (fun e : RegExp * JsString =>
                                requires riskyChars true (source e.1))
                       SQL_DANGEROUS_PATTERNS = true) by by vm_compute.
      rewrite forallb_forall in Hall. by apply Hall, list_elem_of_In. }
    destruct (test entry.1 (trim cell)) eqn:Htest; [|done].
    destruct (test_requires _ _ _ _ Hreq Htest) as (ch & Hch & Hbad).
    rewrite Forall_forall in Hsafe. specialize (Hsafe ch Hch).
    unfold isRisky in Hsafe. apply orb_false_iff in Hsafe as [Hws Hlit].
    apply bool_decide_eq_false in Hlit. destruct Hbad as [? | [_ ?]]; [done | congruence]. }
  split; [done|].
  unfold cellPatternFailures. destruct (isEmptyString (trim cell)); [done|].
  by apply scanPatterns_none.
Qed.

Lemma content_failures_line data hdr config enabled allowed f :
  f ∈ validateDataRows data hdr enabled
      ++ validateColumnSchemas toLowerCase data hdr config
      ++ validateEncoding data hdr allowed →
  (2 ≤ line f)%nat.
Proof.
  rewrite validateColumnSchemas_cells, validateEncoding_cells.
  intros [Hf | [Hf | Hf]%elem_of_app]%elem_of_app.
  - destruct enabled; [|by apply elem_of_nil in Hf]. rewrite validateDataRows_cells in Hf.
    apply elem_of_tableFailures in Hf as (i & row & j & cell & _ & _ & Hf).
    apply cellPatternFailures_line in Hf as [_ ->]. lia.
  - apply elem_of_tableFailures in Hf as (i & row & j & cell & _ & _ & Hf).
    apply cellSchemaFailures_inv in Hf as (e & _ & Hf).
    apply validateCellForSchema_line in Hf as [-> _]. lia.
  - apply elem_of_tableFailures in Hf as (i & row & j & cell & _ & _ & Hf).
    apply cellEncodingFailures_line in Hf as [_ ->]. lia.
Qed.

(** ** The orchestrator *)

(** X19.  validateFile returns a success outcome if and only if the table
    was parsed, has at least one row, its header row passes header
    validation and each of the three content validators reports nothing;
    the message is then "File validation passed successfully". *)
Theorem validateFile_success_iff (parsed : ParseOutcome) (config : ValidationConfig)
    (message : JsString) :
  validateFile toLowerCase parsed config = Success message ↔
  message = js "File validation passed successfully" ∧
  ∃ hdr rows,
    parsed = Parsed (hdr :: rows) ∧
    validateHeaders toLowerCase hdr (headers config) = None ∧
    validateDataRows (hdr :: rows) hdr (default true (validateSqlInjection config)) = [] ∧
    validateColumnSchemas toLowerCase (hdr :: rows) hdr (headers config) = [] ∧
    validateEncoding (hdr :: rows) hdr (default [] (encoding config ≫= allowedEncodings)) = [].
Proof.
  split.
  - destruct parsed as [[|hdr rows] | error]; [done| |done].
    destruct (validateHeaders toLowerCase hdr (headers config)) as [f|] eqn:Hhdr.
    { unfold validateFile. by rewrite Hhdr. }
    rewrite validateFile_past_gate by done. unfold outcomeOf.
    destruct (_ ++ _ ++ _) as [|f fs] eqn:Hall; [|done].
    intros [= <-]. split; [done|]. exists hdr, rows.
    apply app_eq_nil in Hall as [Hp [Hs He]%app_eq_nil]. done.
  - intros (-> & hdr & rows & -> & Hhdr & Hp & Hs & He).
    rewrite validateFile_past_gate by done. by rewrite Hp, Hs, He.
Qed.

(** X20.  A file accepted under a policy is still accepted when the
    pattern check is switched off and the encoding policy is removed. *)
Theorem relaxing_the_policy_keeps_success (parsed : ParseOutcome)
    (config : ValidationConfig) (message : JsString) :
  validateFile toLowerCase parsed config = Success message →
  validateFile toLowerCase parsed (relaxed config) = Success message.
Proof.
  destruct parsed as [[|hdr rows] | error]; [done| |done].
  destruct (validateHeaders toLowerCase hdr (headers config)) as [f|] eqn:Hhdr.
  { unfold validateFile. by rewrite Hhdr. }
  rewrite !validateFile_past_gate by done. unfold outcomeOf.
  destruct (_ ++ _ ++ _) as [|f fs] eqn:Hall; [|done].
  apply app_eq_nil in Hall as [_ [Hs _]%app_eq_nil].
  intros [= <-]. change (headers (relaxed config)) with (headers config).
  by rewrite Hs.
Qed.

(** X21.  In a failure outcome the line of a failure tells the stage that
    produced it: line 0 only for an empty table or a thrown parser error,
    and line 1 only for a header failure, each time as the only failure of
    the outcome; lines of 2 or more only under the message "Validation
    failed: <count> issue(s) found" after the header row passed. *)
Theorem line_tells_the_stage (parsed : ParseOutcome) (config : ValidationConfig)
    (message : JsString) (failures : list ValidationFailure) (f : ValidationFailure) :
  validateFile toLowerCase parsed config = Failure message failures →
  f ∈ failures →
  (line f = 0%nat →
   failures = [f] ∧ column f = js "file" ∧
   (parsed = Parsed [] ∨ ∃ error, parsed = ParseThrew error)) ∧
  (line f = 1%nat →
   failures = [f] ∧ message = js "Header validation failed" ∧
   ∃ hdr rows, parsed = Parsed (hdr :: rows)
               ∧ validateHeaders toLowerCase hdr (headers config) = Some f) ∧
  ((2 ≤ line f)%nat →
   message = js "Validation failed: " ++ numberToString (length failures)
             ++ js " issue(s) found" ∧
   ∃ hdr rows, parsed = Parsed (hdr :: rows)
               ∧ validateHeaders toLowerCase hdr (headers config) = None) ∧
  (line f = 0 ∨ line f = 1 ∨ 2 ≤ line f)%nat.
Proof.
  intros Hout Hf.
  destruct parsed as [[|hdr rows] | error].
  - injection Hout as <- <-. apply list_elem_of_singleton in Hf as ->. simpl.
    split; [intros _; split; [done | split; [done | by left]]|].
    split; [intros ?; lia|]. split; [intros ?; lia | by left].
  - destruct (validateHeaders toLowerCase hdr (headers config)) as [hf|] eqn:Hhdr.
    + unfold validateFile in Hout. rewrite Hhdr in Hout. injection Hout as <- <-.
      apply list_elem_of_singleton in Hf as ->.
      rewrite (validateHeaders_line _ _ _ Hhdr).
      split; [intros ?; lia|].
      split; [intros _; split; [done | split; [done | by exists hdr, rows]]|].
      split; [intros ?; lia | right; by left].
    + rewrite validateFile_past_gate in Hout by done. unfold outcomeOf in Hout.
      destruct (_ ++ _ ++ _) as [|g gs] eqn:Hall; [done|].
      injection Hout as <- <-. rewrite <- Hall in Hf.
      pose proof (content_failures_line _ _ _ _ _ _ Hf) as Hlo.
      split; [intros ?; lia|]. split; [intros ?; lia|].
      split; [intros _; split; [done | by exists hdr, rows] | right; by right].
  - injection Hout as <- <-. apply list_elem_of_singleton in Hf as ->. simpl.
    split; [intros _; split; [done | split; [done | right; by exists error]]|].
    split; [intros ?; lia|]. split; [intros ?; lia | by left].
Qed.

(** ** Booleans *)

(** X9.  In a column of type boolean, a cell that is not empty after
    trimming passes if and only if its trimmed text, with one layer of
    surrounding matching quotes removed and then lower-cased, is one of t,
    f, true, false; otherwise the failure quotes the raw value cut to 50
    characters. *)
Theorem validateCellForSchema_boolean
    (rawValue : JsString) (constraints : ColumnConstraints)
    (columnName : JsString) (lineNumber : nat) :
  type constraints = Some TBoolean →
  trim rawValue ≠ [] →
  let normalized := toLowerCase (spec_strip_quotes (trim rawValue)) in
  let preview :=
    if (50 <? length rawValue)%nat then take 50 rawValue ++ js "..." else rawValue in
  (validateCellForSchema toLowerCase rawValue constraints columnName lineNumber = None
   ↔ normalized ∈ [js "t"; js "f"; js "true"; js "false"]) ∧
  (normalized ∉ [js "t"; js "f"; js "true"; js "false"] →
   validateCellForSchema toLowerCase rawValue constraints columnName lineNumber =
   Some (mkFailure columnName lineNumber
           (js "Column " ++ dquote ++ columnName ++ dquote
            ++ js " expects a boolean (T, F, true, false); got: "
            ++ dquote ++ preview ++ dquote))).
Proof.
  intros Htype Hne normalized preview.
  assert (Hcell :
    validateCellForSchema toLowerCase rawValue constraints columnName lineNumber =
    if includes BOOLEAN_VALUES normalized then None
    else Some (mkFailure columnName lineNumber
                 (js "Column " ++ dquote ++ columnName ++ dquote
                  ++ js " expects a boolean (T, F, true, false); got: "
                  ++ dquote ++ preview ++ dquote))).
  { unfold validateCellForSchema. cbv zeta. rewrite Htype.
    rewrite stripSurroundingQuotes_spec, trim_idem.
    apply isEmptyString_false in Hne. rewrite Hne. fold normalized.
    by destruct (includes BOOLEAN_VALUES normalized). }
  rewrite Hcell. unfold includes, BOOLEAN_VALUES.
  by case_bool_decide as Hin.
Qed.

(** ** Quotes and numbers *)

Lemma dropWhile_app_all p ws s :
  Forall (fun c => p c = true) ws → dropWhile p (ws ++ s) = dropWhile p s.
Proof. induction 1 as [|c ws Hc _ IH]; simpl; [done|]. by rewrite Hc. Qed.

Lemma Forall_rev' {A : Type} (P : A → Prop) (l : list A) : Forall P l → Forall P (rev l).
Proof.
  rewrite !Forall_forall. intros H x Hx. apply H.
  apply list_elem_of_In. apply list_elem_of_In, in_rev in Hx. done.
Qed.

Lemma trim_core ws ws' c inner c' :
  Forall (fun ch => isWhiteSpace ch = true) ws →
  Forall (fun ch => isWhiteSpace ch = true) ws' →
  isWhiteSpace c = false → isWhiteSpace c' = false →
  trim (ws ++ (c :: inner ++ [c']) ++ ws') = c :: inner ++ [c'].
Proof.
  intros Hws Hws' Hc Hc'. unfold trim, trimStart, trimEnd.
  set (core := c :: inner ++ [c']).
  assert (H1 : dropWhile isWhiteSpace (core ++ ws') = core ++ ws').
  { unfold core. simpl. by rewrite Hc. }
  assert (H2 : dropWhile isWhiteSpace (rev core) = rev core).
  { replace (rev core) with (c' :: rev (c :: inner)); [by apply dropWhile_keep|].
    unfold core. change (c :: inner ++ [c']) with ((c :: inner) ++ [c']).
    by rewrite rev_app_distr. }
  rewrite dropWhile_app_all, H1 by done.
  rewrite rev_app_distr, dropWhile_app_all by by apply Forall_rev'.
  by rewrite H2, rev_involutive.
Qed.

(** X24.  stripSurroundingQuotes removes surrounding whitespace and then
    exactly one pair of matching single or double quotes, leaving what is
    inside untouched (inner quotes and inner whitespace included); a value
    that is not of this form is only trimmed. *)
Theorem stripSurroundingQuotes_one_layer :
  (∀ (ws ws' inner : JsString) (q : N),
     Forall (fun ch => isWhiteSpace ch = true) ws →
     Forall (fun ch => isWhiteSpace ch = true) ws' →
     q = 34 ∨ q = 39 →
     stripSurroundingQuotes (ws ++ ([q] ++ inner ++ [q]) ++ ws') = inner) ∧
  (∀ v : JsString,
     stripSurroundingQuotes v = trim v ∨
     ∃ q inner, (q = 34 ∨ q = 39) ∧ trim v = [q] ++ inner ++ [q]
                ∧ stripSurroundingQuotes v = inner).
Proof.
  split.
  - intros ws ws' inner q Hws Hws' Hq.
    rewrite stripSurroundingQuotes_spec.
    assert (Hnw : isWhiteSpace q = false) by (by destruct Hq as [-> | ->]).
    change ([q] ++ inner ++ [q]) with (q :: inner ++ [q]).
    rewrite trim_core by done. unfold spec_strip_quotes.
    rewrite rev_app_distr.
    destruct Hq as [-> | ->]; simpl; by rewrite rev_involutive.
  - intros v. rewrite stripSurroundingQuotes_spec. unfold spec_strip_quotes.
    destruct (trim v) as [|q tl]; [by left|].
    destruct (rev tl) as [|q' rinner] eqn:Htl; [by left|].
    destruct (((q =? 34) || (q =? 39)) && (q =? q')) eqn:Hcond; [|by left].
    right. apply andb_true_iff in Hcond as [Hq Hq'%N.eqb_eq]. subst q'.
    exists q, (rev rinner). split.
    { apply orb_true_iff in Hq as [?%N.eqb_eq | ?%N.eqb_eq]; auto. }
    split; [|done]. apply (f_equal (@rev N)) in Htl. rewrite rev_involutive in Htl.
    by rewrite Htl.
Qed.

(** X25.  A value accepted by NUMBER_PATTERN consists of digits, minus
    signs and dots only, contains at least one digit, and has no minus
    sign after its first character; so exponents, plus signs, thousands
    separators and inner spaces are rejected. *)
Theorem number_pattern_alphabet (v : JsString) :
  test NUMBER_PATTERN v = true →
  Forall (fun c => isDigit c = true ∨ c = 45 ∨ c = 46) v ∧
  (∃ d, d ∈ v ∧ isDigit d = true) ∧
  45 ∉ tail v.
Proof.
  intros (sign & body & -> & Hsign & Hbody)%number_pattern_spec.
  assert (Hb : Forall (fun c => isDigit c = true ∨ c = 46) body
               ∧ ∃ d, d ∈ body ∧ isDigit d = true).
  { destruct Hbody as [(ds & tl & -> & Hne & Hds & Htl) | (fs & -> & Hne & Hfs)].
    - split.
      + apply Forall_app. split.
        * eapply Forall_impl; [exact Hds|]. by left.
        * destruct Htl as [-> | (fs & -> & Hfs)]; [constructor|].
          constructor; [by right|]. eapply Forall_impl; [exact Hfs|]. by left.
      + destruct ds as [|d ds]; [done|]. exists d.
        split; [apply list_elem_of_here|]. by apply Forall_cons in Hds as [? _].
    - split.
      + constructor; [by right|]. eapply Forall_impl; [exact Hfs|]. by left.
      + destruct fs as [|d fs]; [done|]. exists d.
        split; [apply list_elem_of_further, list_elem_of_here|].
        by apply Forall_cons in Hfs as [? _]. }
  destruct Hb as [Hbody' (d & Hd & Hdigit)].
  assert (Hno : ∀ l, Forall (fun c => isDigit c = true ∨ c = 46) l → 45 ∉ l).
  { intros l Hl Hin. rewrite Forall_forall in Hl. by destruct (Hl 45 Hin). }
  split; [|split].
  - apply Forall_app. split.
    + destruct Hsign as [-> | ->]; [constructor|]. constructor; [|constructor]. right. by left.
    + eapply Forall_impl; [exact Hbody'|]. intros c [? | ?]; auto.
  - exists d. split; [|done]. apply elem_of_app. by right.
  - destruct Hsign as [-> | ->]; simpl.
    + destruct body as [|c body]; simpl; [by intros ?%elem_of_nil|].
      apply Hno. by apply Forall_cons in Hbody' as [_ ?].
    + by apply Hno.
Qed.

(** ** The parser entry point *)

Lemma lastIndexOfFrom_absent c s : ∀ index found,
  c ∉ s → lastIndexOfFrom c s index found = found.
Proof.
  induction s as [|x s IH]; intros index found Hc; simpl; [done|].
  apply not_elem_of_cons in Hc as [Hne Hc]. rewrite IH by done.
  destruct (N.eqb_spec x c); [congruence | done].
Qed.

Lemma lastIndexOfFrom_last c pre post : ∀ index found,
  c ∉ post →
  lastIndexOfFrom c (pre ++ c :: post) index found = Z.of_nat (index + length pre).
Proof.
  induction pre as [|x pre IH]; intros index found Hc; simpl.
  - rewrite N.eqb_refl, lastIndexOfFrom_absent by done. f_equal. lia.
  - rewrite IH by done. f_equal. lia.
Qed.

Lemma extension_of fileName stem ext :
  (fileName = stem ++ js "." ++ ext ∨ (46 ∉ fileName) ∧ ext = fileName) →
  46 ∉ ext →
  substringFrom (lastIndexOf fileName 46 + 1)%Z fileName = ext.
Proof.
  intros [-> | [Hnodot ->]] Hext; unfold substringFrom, lastIndexOf.
  - change (js "." ++ ext) with (46 :: ext).
    rewrite lastIndexOfFrom_last by done. simpl.
    change (stem ++ 46 :: ext) with (stem ++ [46] ++ ext).
    rewrite (assoc_L (++)). apply drop_app_length'. rewrite length_app. simpl. lia.
  - by rewrite lastIndexOfFrom_absent.
Qed.

(** X22.  parseFile decides on the lower-cased text after the last dot of
    the file name (the whole name when it has no dot): csv goes to the CSV
    parser, xlsx, xls and xlsm go to the Excel parser, and anything else
    throws an error "Unsupported file type: <extension>. Supported types:
    csv, xlsx, xls, xlsm". *)
Theorem parseFile_dispatches_on_extension
    (parseCsv parseExcel : File → ParseOutcome) (file : File) (stem ext : JsString) :
  (toLowerCase (file_name file) = stem ++ js "." ++ ext
   ∨ (46 ∉ toLowerCase (file_name file)) ∧ ext = toLowerCase (file_name file)) →
  46 ∉ ext →
  (ext = js "csv" → parseFile toLowerCase parseCsv parseExcel file = parseCsv file) ∧
  (ext ∈ [js "xlsx"; js "xls"; js "xlsm"] →
   parseFile toLowerCase parseCsv parseExcel file = parseExcel file) ∧
  (ext ∉ [js "csv"; js "xlsx"; js "xls"; js "xlsm"] →
   parseFile toLowerCase parseCsv parseExcel file =
   ParseThrew (ThrownError (js "Unsupported file type: " ++ ext
                            ++ js ". Supported types: csv, xlsx, xls, xlsm"))).
Proof.
  intros Hname Hext. unfold parseFile. cbv zeta.
  rewrite (extension_of _ stem ext Hname Hext). unfold includes.
  split; [|split].
  - intros ->. by rewrite bool_decide_eq_true_2.
  - intros Hin. rewrite bool_decide_eq_false_2.
    + by rewrite bool_decide_eq_true_2.
    + intros ->. by vm_compute in Hin; repeat (apply elem_of_cons in Hin as [Hin | Hin];
        [discriminate|]); apply elem_of_nil in Hin.
  - intros Hnot. apply not_elem_of_cons in Hnot as [Hcsv Hexcel].
    by rewrite !bool_decide_eq_false_2.
Qed.

(** X23.  For a file whose extension is not supported, validating the file
    gives, whatever the parsers and the policy, the failure outcome "Error
    processing file: Unsupported file type: ..." with the single failure
    of column "file" and line 0 carrying the same text as reason. *)
Theorem unsupported_file_types_are_reported
    (parseCsv parseExcel : File → ParseOutcome) (file : File) (config : ValidationConfig)
    (stem ext : JsString) :
  (toLowerCase (file_name file) = stem ++ js "." ++ ext
   ∨ (46 ∉ toLowerCase (file_name file)) ∧ ext = toLowerCase (file_name file)) →
  46 ∉ ext →
  ext ∉ [js "csv"; js "xlsx"; js "xls"; js "xlsm"] →
  validateUpload toLowerCase parseCsv parseExcel file config =
  Failure
    (js "Error processing file: Unsupported file type: " ++ ext
     ++ js ". Supported types: csv, xlsx, xls, xlsm")
    [mkFailure (js "file") 0
       (js "Unsupported file type: " ++ ext
        ++ js ". Supported types: csv, xlsx, xls, xlsm")].
Proof.
  intros Hname Hext Hnot. unfold validateUpload, parseFile. cbv zeta.
  rewrite (extension_of _ stem ext Hname Hext). unfold includes.
  apply not_elem_of_cons in Hnot as [Hcsv Hexcel].
  by rewrite !bool_decide_eq_false_2 by done.
Qed.

End FurtherProperties.

(** * Further concrete tables *)

Lemma validateHeaders_any_order_iff_witness :
  strictOrder any_order_policy = Some false ∧
  validateHeaders asciiToLowerCase [js "Email"; js "Extra"; js " Name "] any_order_policy
  = None.
Proof.
  split; [reflexivity|].
  apply (proj2 (validateHeaders_any_order_iff asciiToLowerCase
                  [js "Email"; js "Extra"; js " Name "] any_order_policy eq_refl)).
  intros e He. apply (bool_decide_eq_true_1 _).
  apply elem_of_cons in He as [-> | He]; [by vm_compute|].
  apply list_elem_of_singleton in He as ->. by vm_compute.
Defined.

Lemma validateHeaders_strict_iff_witness :
  strictOrder strict_policy = None ∧
  validateHeaders asciiToLowerCase [js " Name"; js "Email "; js "Age"] strict_policy = None.
Proof.
  split; [reflexivity|].
  apply (proj2 (validateHeaders_strict_iff asciiToLowerCase
                  [js " Name"; js "Email "; js "Age"] strict_policy ltac:(done))).
  reflexivity.
Defined.

Lemma validateHeaders_count_mismatch_witness :
  length (name_email_age ++ [js "Extra"]) = 4%nat ∧
  validateHeaders asciiToLowerCase (name_email_age ++ [js "Extra"]) strict_policy =
  Some (mkFailure (js "headers") 1 (js "Expected 3 headers, found 4")).
Proof.
  split; [reflexivity|].
  apply (validateHeaders_count_mismatch asciiToLowerCase
           (name_email_age ++ [js "Extra"]) strict_policy); [done | | done].
  intros e He. apply (bool_decide_eq_true_1 _).
  repeat (apply elem_of_cons in He as [-> | He]; [by vm_compute|]).
  by apply elem_of_nil in He.
Defined.

Lemma validateHeaders_first_mismatch_witness :
  [js "Name"; js "Age"; js "Email"] !! 1%nat = Some (js "Age") ∧
  validateHeaders asciiToLowerCase [js "Name"; js "Age"; js "Email"] strict_policy =
  Some (mkFailure (js "Email") 1
          (js "Expected header " ++ dquote ++ js "Email" ++ dquote
           ++ js " at position 2, found " ++ dquote ++ js "Age" ++ dquote)).
Proof.
  split; [reflexivity|].
  apply (validateHeaders_first_mismatch asciiToLowerCase
           [js "Name"; js "Age"; js "Email"] strict_policy 1 (js "Email") (js "Age"));
    [done | | done | done | done | by vm_compute |].
  - intros e He. apply (bool_decide_eq_true_1 _).
    repeat (apply elem_of_cons in He as [-> | He]; [by vm_compute|]).
    by apply elem_of_nil in He.
  - intros j h e Hj Hh He. destruct j as [|j]; [|lia].
    injection Hh as <-. by injection He as <-.
Defined.

Lemma getFilteredColumnSchemas_lookup_witness :
  columnSchemas upper_key_policy = Some [(js "AGE", age_required)] ∧
  getFilteredColumnSchemas asciiToLowerCase upper_key_policy !! js "Age" = Some age_required.
Proof.
  split; [reflexivity|].
  apply (getFilteredColumnSchemas_lookup asciiToLowerCase upper_key_policy
           [(js "AGE", age_required)] (js "AGE") (js "Age") age_required).
  - reflexivity.
  - apply NoDup_singleton.
  - apply list_elem_of_here.
  - by vm_compute.
Defined.

Lemma unknown_schema_keys_are_dropped_witness :
  columnSchemas unknown_key_policy = Some [(js "Salary", age_required)] ∧
  validateColumnSchemas asciiToLowerCase blank_age_table ragged_header unknown_key_policy
  = [].
Proof.
  split; [reflexivity|].
  apply (unknown_schema_keys_are_dropped asciiToLowerCase blank_age_table ragged_header
           unknown_key_policy).
  intros schemas key c [= <-] Hin. apply list_elem_of_singleton in Hin as [= -> ->].
  apply (bool_decide_eq_false_1 _). by vm_compute.
Defined.

Lemma lenient_schemas_report_nothing_witness :
  lenient (mkColumnConstraints None None) ∧
  validateColumnSchemas asciiToLowerCase blank_age_table ragged_header
    default_schema_policy = [].
Proof.
  split; [by split; [left|] |].
  apply (lenient_schemas_report_nothing asciiToLowerCase blank_age_table ragged_header
           default_schema_policy).
  intros schemas key c [= <-] Hin.
  apply elem_of_cons in Hin as [[= -> ->] | Hin]; [by split; [left|] |].
  apply list_elem_of_singleton in Hin as [= -> ->]. by split; [right|].
Defined.

Lemma validateCellForSchema_boolean_witness :
  trim (js " 'TRUE' ") = js "'TRUE'" ∧
  validateCellForSchema asciiToLowerCase (js " 'TRUE' ")
    (mkColumnConstraints (Some TBoolean) None) (js "Active") 2 = None.
Proof.
  split; [reflexivity|].
  apply (proj1 (validateCellForSchema_boolean asciiToLowerCase (js " 'TRUE' ")
                  (mkColumnConstraints (Some TBoolean) None) (js "Active") 2%nat
                  eq_refl ltac:(by vm_compute))).
  apply (bool_decide_eq_true_1 _). by vm_compute.
Defined.

Lemma failures_point_at_data_cells_witness :
  validateDataRows injection_table name_email true = [injection_failure] ∧
  (2 ≤ line injection_failure ≤ length injection_table)%nat.
Proof.
  assert (Hrows : validateDataRows injection_table name_email true = [injection_failure])
    by by vm_compute.
  assert (Hin : injection_failure
                ∈ validateDataRows injection_table name_email true
                  ++ validateColumnSchemas asciiToLowerCase injection_table name_email
                       (headers base_policy)
                  ++ validateEncoding injection_table name_email []).
  { apply elem_of_app. left. rewrite Hrows. apply list_elem_of_here. }
  split; [exact Hrows|].
  exact (proj1 (failures_point_at_data_cells asciiToLowerCase injection_table name_email
                  (headers base_policy) true [] injection_failure Hin)).
Defined.

Lemma isValid_is_a_threshold_witness :
  limitOf [UTF8; LATIN1] = 0xFF ∧ isValid [UTF8; LATIN1] 0xE9 = (0xE9 <=? 0xFF).
Proof.
  split; [reflexivity|].
  exact (proj1 (isValid_is_a_threshold [UTF8; LATIN1] 0xE9 ltac:(done))).
Defined.

Lemma wider_policy_reports_fewer_cells_witness :
  length (validateEncoding cafe_table name_email [UTF8]) = 1%nat ∧
  (length (validateEncoding cafe_table name_email [UTF8; LATIN1])
   ≤ length (validateEncoding cafe_table name_email [UTF8]))%nat.
Proof.
  split; [reflexivity|].
  apply (wider_policy_reports_fewer_cells cafe_table name_email [UTF8] [UTF8; LATIN1]);
    [done|].
  intros e He. apply list_elem_of_singleton in He as ->. apply list_elem_of_here.
Defined.

Lemma encodings_with_equal_limits_flag_the_same_cells_witness :
  limitOf [UTF8] = limitOf [ASCII; UTF16] ∧
  position <$> validateEncoding cafe_table name_email [UTF8] =
  position <$> validateEncoding cafe_table name_email [ASCII; UTF16].
Proof.
  split; [reflexivity|].
  by apply (encodings_with_equal_limits_flag_the_same_cells cafe_table name_email
              [UTF8] [ASCII; UTF16]).
Defined.

Lemma semicolon_takes_precedence_witness :
  test (mkRegExp (seqs [lit "';"; sp; lit "exec"]) true) (trim (js "x'; EXEC y")) = true ∧
  cellPatternFailures name_email 1 0 (js "x'; EXEC y") =
  [patternFailure name_email 1 0 (js "x'; EXEC y") (js "Statement terminator")].
Proof.
  assert (Htest : test (mkRegExp (seqs [lit "';"; sp; lit "exec"]) true)
                    (trim (js "x'; EXEC y")) = true) by by vm_compute.
  split; [exact Htest|].
  apply (semicolon_takes_precedence name_email 1 0 (js "x'; EXEC y")).
  right. exists 6%nat, (mkRegExp (seqs [lit "';"; sp; lit "exec"]) true),
    (js "SQL injection with exec").
  split; [lia|]. split; [reflexivity | exact Htest].
Defined.

Lemma cells_without_risky_characters_pass_witness :
  Forall (fun ch => isRisky ch = false) (trim (js " alice@example.com ")) ∧
  cellPatternFailures name_email 1 1 (js " alice@example.com ") = [].
Proof.
  assert (Hsafe : Forall (fun ch => isRisky ch = false) (trim (js " alice@example.com "))).
  { change (trim (js " alice@example.com ")) with (js "alice@example.com").
    by repeat constructor. }
  split; [exact Hsafe|].
  exact (proj2 (cells_without_risky_characters_pass name_email 1 1
                  (js " alice@example.com ") Hsafe)).
Defined.

Lemma relaxing_the_policy_keeps_success_witness :
  validateFile asciiToLowerCase (Parsed odd_table) odd_policy =
  Success (js "File validation passed successfully") ∧
  validateFile asciiToLowerCase (Parsed odd_table) (relaxed odd_policy) =
  Success (js "File validation passed successfully").
Proof.
  assert (Hok : validateFile asciiToLowerCase (Parsed odd_table) odd_policy =
                Success (js "File validation passed successfully")) by by vm_compute.
  split; [exact Hok|].
  exact (relaxing_the_policy_keeps_success asciiToLowerCase (Parsed odd_table) odd_policy
           _ Hok).
Defined.

Lemma line_tells_the_stage_witness :
  validateFile asciiToLowerCase (Parsed injection_table) base_policy =
  Failure (js "Validation failed: 1 issue(s) found") [injection_failure] ∧
  (line injection_failure = 0 ∨ line injection_failure = 1 ∨ 2 ≤ line injection_failure)%nat.
Proof.
  assert (Hout : validateFile asciiToLowerCase (Parsed injection_table) base_policy =
                 Failure (js "Validation failed: 1 issue(s) found") [injection_failure])
    by by vm_compute.
  split; [exact Hout|].
  exact (proj2 (proj2 (proj2 (line_tells_the_stage asciiToLowerCase (Parsed injection_table)
                                base_policy _ _ injection_failure Hout
                                (list_elem_of_here _ _))))).
Defined.

Lemma parseFile_dispatches_on_extension_witness :
  asciiToLowerCase (file_name csv_upload) = js "report.final" ++ js "." ++ js "csv" ∧
  parseFile asciiToLowerCase (fun _ => Parsed injection_table)
    (fun _ => ParseThrew ThrownOther) csv_upload = Parsed injection_table.
Proof.
  split; [reflexivity|].
  apply (proj1 (parseFile_dispatches_on_extension asciiToLowerCase
                  (fun _ => Parsed injection_table) (fun _ => ParseThrew ThrownOther)
                  csv_upload (js "report.final") (js "csv")
                  (or_introl eq_refl) ltac:(apply (bool_decide_eq_false_1 _); by vm_compute))).
  reflexivity.
Defined.

Lemma unsupported_file_types_are_reported_witness :
  asciiToLowerCase (file_name text_upload) = js "notes" ++ js "." ++ js "txt" ∧
  validateUpload asciiToLowerCase (fun _ => Parsed injection_table)
    (fun _ => Parsed injection_table) text_upload base_policy =
  Failure
    (js "Error processing file: Unsupported file type: txt. Supported types: csv, xlsx, xls, xlsm")
    [mkFailure (js "file") 0
       (js "Unsupported file type: txt. Supported types: csv, xlsx, xls, xlsm")].
Proof.
  split; [reflexivity|].
  apply (unsupported_file_types_are_reported asciiToLowerCase
           (fun _ => Parsed injection_table) (fun _ => Parsed injection_table)
           text_upload base_policy (js "notes") (js "txt")).
  - by left.
  - apply (bool_decide_eq_false_1 _). by vm_compute.
  - apply (bool_decide_eq_false_1 _). by vm_compute.
Defined.

Lemma number_pattern_alphabet_witness :
  test NUMBER_PATTERN (js "-3.14") = true ∧
  Forall (fun c => isDigit c = true ∨ c = 45 ∨ c = 46) (js "-3.14").
Proof.
  assert (Htest : test NUMBER_PATTERN (js "-3.14") = true) by by vm_compute.
  split; [exact Htest|].
  exact (proj1 (number_pattern_alphabet (js "-3.14") Htest)).
Defined.
